(** * Olympian birthplace pipeline: the season resolver and its outputs

    A shallow embedding of [filter-by-olympics.py], [filter-winter.py] and
    the birth-place parser of [olympians-by-state.py].

    Text.  A Python [str] is a [string]: the UTF-8 bytes of the text.  Byte
    order is code-point order, so [sorted] is the byte-wise order.  The
    character classes of [re] and of [str.strip]/[str.split] are given on
    the ASCII range, which is what the data files and the pages hold;
    digits and blanks outside ASCII are outside the model.

    Rows.  A [csv.DictReader] row is a finite map from column name to cell,
    every cell a string (a short line, which yields [None] cells, is outside
    the model).

    Network.  [urllib.request.urlopen] is an oracle from the requests made
    so far and the URL to one of the three outcomes [_fetch] tells apart.
    [time.sleep] is a log of the seconds slept.  The delays 4.0, 8.0, ...
    60.0 are floats holding integers, doubled and capped without rounding,
    hence [Z]. *)

From Stdlib Require Import Ascii String ZArith Lia.
From stdpp Require Import base option list sorting gmap strings pretty.

Local Open Scope Z_scope.

(** ** Python text primitives *)

Module Py.

Definition chars (s : string) : list ascii := list_ascii_of_string s.
Definition str (l : list ascii) : string := string_of_list_ascii l.

(** [str.isspace] on one ASCII character: TAB..CR, FS..US and the blank. *)
Definition isspace (c : ascii) : bool :=
  let n := N_of_ascii c in
  ((9 <=? n) && (n <=? 13) || (28 <=? n) && (n <=? 32))%N.

(** [\d] *)
Definition isdigit (c : ascii) : bool :=
  let n := N_of_ascii c in ((48 <=? n) && (n <=? 57))%N.

(** [[A-Z]] *)
Definition isupper (c : ascii) : bool :=
  let n := N_of_ascii c in ((65 <=? n) && (n <=? 90))%N.

Definition is_char (a : ascii) (c : ascii) : bool := bool_decide (c = a).
Definition not_char (a : ascii) (c : ascii) : bool := negb (is_char a c).

Fixpoint lstrip_chars (l : list ascii) : list ascii :=
  match l with
  | c :: l' => if isspace c then lstrip_chars l' else l
  | [] => []
  end.

Definition rstrip_chars (l : list ascii) : list ascii :=
  rev (lstrip_chars (rev l)).

(** [s.strip()] *)
Definition strip (s : string) : string :=
  str (rstrip_chars (lstrip_chars (chars s))).

(** [sep.join(parts)] *)
Fixpoint join (sep : string) (parts : list string) : string :=
  match parts with
  | [] => ""
  | [p] => p
  | p :: rest => p +:+ sep +:+ join sep rest
  end.

(** [s.split(sep)] for a one-character separator: every separator cuts,
    empty fields are kept. *)
Fixpoint split_chars (sep : ascii) (cur : list ascii) (l : list ascii)
  : list (list ascii) :=
  match l with
  | [] => [rev cur]
  | c :: l' =>
      if bool_decide (c = sep) then rev cur :: split_chars sep [] l'
      else split_chars sep (c :: cur) l'
  end.

Definition split (sep : ascii) (s : string) : list string :=
  str <$> split_chars sep [] (chars s).

(** [s.split()]: runs of blanks cut, no empty fields. *)
Fixpoint words_chars (cur : list ascii) (l : list ascii) : list (list ascii) :=
  match l with
  | [] => match cur with [] => [] | _ => [rev cur] end
  | c :: l' =>
      if isspace c
      then match cur with
           | [] => words_chars [] l'
           | _ => rev cur :: words_chars [] l'
           end
      else words_chars (c :: cur) l'
  end.

Definition split_ws (s : string) : list string :=
  str <$> words_chars [] (chars s).

(** [s.startswith(p)] *)
Fixpoint startswith_chars (p l : list ascii) : bool :=
  match p, l with
  | [], _ => true
  | a :: p', c :: l' => bool_decide (a = c) && startswith_chars p' l'
  | _ :: _, [] => false
  end.

Definition startswith (p s : string) : bool :=
  startswith_chars (chars p) (chars s).

(** [p in s] on strings *)
Fixpoint contains_chars (p l : list ascii) : bool :=
  startswith_chars p l ||
  match l with
  | [] => false
  | _ :: l' => contains_chars p l'
  end.

Definition contains (p s : string) : bool :=
  contains_chars (chars p) (chars s).

(** [s.replace(old, new)] for a non-empty [old], leftmost first. *)
Fixpoint replace_chars (old new : list ascii) (fuel : nat) (skip : nat)
    (l : list ascii) : list ascii :=
  match fuel with
  | O => l
  | S fuel' =>
      match l with
      | [] => []
      | c :: l' =>
          match skip with
          | S k => replace_chars old new fuel' k l'
          | O =>
              if startswith_chars old l
              then new ++ replace_chars old new fuel' (length old - 1) l'
              else c :: replace_chars old new fuel' O l'
          end
      end
  end.

Definition replace (old new s : string) : string :=
  let l := chars s in
  str (replace_chars (chars old) (chars new) (S (length l)) O l).

(** [sorted(l)] on strings, and [sorted(set(a) | set(b))]. *)
Definition sorted (l : list string) : list string := merge_sort String.le l.

Definition sorted_union (a b : list string) : list string :=
  sorted (remove_dups (a ++ b)).

(** [int(s)] on a run of ASCII digits; [None] stands for [ValueError]. *)
Fixpoint int_chars (acc : Z) (l : list ascii) : option Z :=
  match l with
  | [] => Some acc
  | c :: l' =>
      if isdigit c
      then int_chars (10 * acc + (Z.of_N (N_of_ascii c) - 48)) l'
      else None
  end.

Definition int (s : string) : option Z :=
  match chars s with
  | [] => None
  | l => int_chars 0 l
  end.

(** [s[:n]] *)
Definition prefix (n : nat) (s : string) : string := str (take n (chars s)).

(** *** The fragment of [re] the scripts use

    Concatenations of literals, character classes, repeated character
    classes (greedy or lazy), capture groups and the two anchors.  The
    matcher is the backtracking one: it returns the first match in
    priority order, as [re] does. *)

Inductive regex : Type :=
  | Lit (s : string)
  | Class (p : ascii → bool)
  | Rep (p : ascii → bool) (min : nat) (greedy : bool)
  | Cat (r1 r2 : regex)
  | Group (n : nat) (r : regex)
  | Bol
  | Eol.

Fixpoint cats (rs : list regex) : regex :=
  match rs with
  | [] => Lit ""
  | [r] => r
  | r :: rs' => Cat r (cats rs')
  end.

Abbreviation captures := (gmap nat string).

(** The continuation gets the consumed text (reversed), the rest and the
    groups closed so far. *)
Abbreviation cont := (list ascii → list ascii → captures → option captures).

Fixpoint lit_chars (p : list ascii) (pre l : list ascii)
  : option (list ascii * list ascii) :=
  match p with
  | [] => Some (pre, l)
  | a :: p' =>
      match l with
      | c :: l' => if bool_decide (a = c) then lit_chars p' (c :: pre) l' else None
      | [] => None
      end
  end.

Fixpoint rep (p : ascii → bool) (greedy : bool) (min : nat)
    (pre l : list ascii) (k : list ascii → list ascii → option captures)
    {struct l} : option captures :=
  match min with
  | S m =>
      match l with
      | c :: l' => if p c then rep p greedy m (c :: pre) l' k else None
      | [] => None
      end
  | O =>
      if greedy then
        match l with
        | c :: l' =>
            if p c then
              match rep p greedy O (c :: pre) l' k with
              | Some r => Some r
              | None => k pre l
              end
            else k pre l
        | [] => k pre l
        end
      else
        match k pre l with
        | Some r => Some r
        | None =>
            match l with
            | c :: l' => if p c then rep p greedy O (c :: pre) l' k else None
            | [] => None
            end
        end
  end.

(** [$] without [re.MULTILINE]: the end, or just before a final newline. *)
Definition at_eol (l : list ascii) : bool :=
  match l with
  | [] => true
  | [c] => bool_decide (c = "010"%char)
  | _ => false
  end.

Fixpoint run (r : regex) (pre l : list ascii) (caps : captures) (k : cont)
  : option captures :=
  match r with
  | Lit s =>
      match lit_chars (chars s) pre l with
      | Some (pre', l') => k pre' l' caps
      | None => None
      end
  | Class p =>
      match l with
      | c :: l' => if p c then k (c :: pre) l' caps else None
      | [] => None
      end
  | Rep p min greedy => rep p greedy min pre l (λ pre' l', k pre' l' caps)
  | Cat r1 r2 => run r1 pre l caps (λ pre' l' caps', run r2 pre' l' caps' k)
  | Group n r1 =>
      run r1 pre l caps (λ pre' l' caps',
        k pre' l' (<[n := str (rev (take (length pre' - length pre) pre'))]> caps'))
  | Bol => match pre with [] => k pre l caps | _ => None end
  | Eol => if at_eol l then k pre l caps else None
  end.

Definition accept : cont := λ _ _ caps, Some caps.

(** [re.match(r, s)] *)
Definition re_match (r : regex) (s : string) : option captures :=
  run r [] (chars s) ∅ accept.

(** [re.search(r, s)]: the leftmost start that matches. *)
Fixpoint search_from (r : regex) (pre l : list ascii) : option captures :=
  match run r pre l ∅ accept with
  | Some caps => Some caps
  | None =>
      match l with
      | c :: l' => search_from r (c :: pre) l'
      | [] => None
      end
  end.

Definition re_search (r : regex) (s : string) : option captures :=
  search_from r [] (chars s).

(** [m.group(n)] *)
Definition group (n : nat) (caps : captures) : string := default "" (caps !! n).

End Py.

(** ** Tables, files and the outside world *)

(** A row of [csv.DictReader]. *)
Abbreviation row := (gmap string string).

(** [row.get(k, "")] *)
Definition get (k : string) (r : row) : string := default "" (r !! k).

(** A CSV file: the header and the rows read under it. *)
Record csv_file := CsvFile { fieldnames : list string; rows : list row }.

(** The files under the script directory, by relative path. *)
Abbreviation files := (gmap string csv_file).

(** [os.path.join(dir, name)] *)
Definition path_join (dir name : string) : string := dir +:+ "/" +:+ name.

(** The outcomes of [urllib.request.urlopen] that [_fetch] tells apart. *)
Inductive response : Type :=
  | Ok200 (body : string)
  | HTTPError (code : Z)
  | URLError.

(** The tokens [HTMLParser.feed] hands to the handlers. *)
Inductive event : Type :=
  | StartTag (tag : string) (attrs : list (string * string))
  | EndTag (tag : string)
  | Data (data : string).

(** What the scripts do not define themselves: the web site (its answer
    may depend on every request made before), the tokenizer of
    [html.parser] and [urllib.parse.quote_plus]. *)
Record site := Site {
  server : list string → string → response;
  feed : string → list event;
  quote_plus : string → string
}.

(** The mutable state of a run: the module-level [_current_delay], the
    seconds slept and the URLs requested, oldest first. *)
Record world := World {
  _current_delay : Z;
  slept : list Z;
  requests : list string
}.

Inductive season : Type := Winter | Summer.

Definition season_name (s : season) : string :=
  match s with Winter => "Winter" | Summer => "Summer" end.

Global Instance season_eq_dec : EqDecision season.
Proof. solve_decision. Defined.

(** ** The part both filter scripts carry verbatim *)

Module Scrape.

Definition REQUEST_DELAY : Z := 4.
Definition MAX_DELAY : Z := 60.
Definition MAX_RETRIES : nat := 6.
Definition BASE_URL : string := "https://www.olympedia.org".

Definition start : world :=
  {| _current_delay := REQUEST_DELAY; slept := []; requests := [] |}.

(** *** [LinkTextParser] *)

(** [_href] is read only after a start tag has set it, so its initial
    [None] is never observed; it starts at the empty string here. *)
Record LinkTextParser := Parser {
  _in_a : bool;
  _buf : list string;
  links : list (string * string);
  _href : string
}.

Definition new_parser : LinkTextParser :=
  {| _in_a := false; _buf := []; links := []; _href := "" |}.

(** [dict(attrs).get(k, d)]: the last binding wins. *)
Definition attrs_get (k d : string) (attrs : list (string * string)) : string :=
  default d (foldl (λ (m : gmap string string) kv, <[kv.1 := kv.2]> m) ∅ attrs !! k).

Definition handle_starttag (tag : string) (attrs : list (string * string))
    (p : LinkTextParser) : LinkTextParser :=
  if bool_decide (tag = "a")
  then {| _in_a := true; _buf := []; links := links p;
          _href := attrs_get "href" "" attrs |}
  else p.

Definition handle_endtag (tag : string) (p : LinkTextParser) : LinkTextParser :=
  if bool_decide (tag = "a") && _in_a p
  then {| _in_a := false; _buf := [];
          links := links p ++ [(_href p, Py.strip (Py.join "" (_buf p)))];
          _href := _href p |}
  else p.

Definition handle_data (data : string) (p : LinkTextParser) : LinkTextParser :=
  if _in_a p
  then {| _in_a := _in_a p; _buf := _buf p ++ [data]; links := links p;
          _href := _href p |}
  else p.

Definition handle (p : LinkTextParser) (e : event) : LinkTextParser :=
  match e with
  | StartTag tag attrs => handle_starttag tag attrs p
  | EndTag tag => handle_endtag tag p
  | Data data => handle_data data p
  end.

(** [parser = LinkTextParser(); parser.feed(html); parser.links] *)
Definition page_links (S : site) (html : string) : list (string * string) :=
  links (foldl handle new_parser (feed S html)).

(** *** [_fetch] *)

(** One turn of the [for attempt in range(1, MAX_RETRIES + 1)] loop per
    unit of [n]; [delay] is the local of that name. *)
Fixpoint attempts (S : site) (n : nat) (url : string) (delay : Z) (w : world)
  : option string * world :=
  match n with
  | O => (None, w)
  | Datatypes.S n' =>
      let answer := server S (requests w) url in
      let w' := {| _current_delay := _current_delay w;
                   slept := slept w ++ [delay];
                   requests := requests w ++ [url] |} in
      match answer with
      | Ok200 body =>
          (Some body,
           {| _current_delay := REQUEST_DELAY; slept := slept w';
              requests := requests w' |})
      | HTTPError code =>
          if code =? 429
          then attempts S n' url (Z.min (delay * 2) MAX_DELAY) w'
          else (None, w')
      | URLError => (None, w')
      end
  end.

Definition _fetch (S : site) (url : string) (w : world) : option string * world :=
  attempts S MAX_RETRIES url (_current_delay w) w.

(** [re.match(r"^/athletes/(\d+)$", href)] *)
Definition PROFILE_RE : Py.regex :=
  Py.cats [Py.Bol; Py.Lit "/athletes/"; Py.Group 1 (Py.Rep Py.isdigit 1 true); Py.Eol].

(** [re.compile(r"^\d{4} <Season> Olympics$")] *)
Definition SEASON_RE (season_word : string) : Py.regex :=
  Py.cats [Py.Bol; Py.Class Py.isdigit; Py.Class Py.isdigit; Py.Class Py.isdigit;
           Py.Class Py.isdigit; Py.Lit (" " +:+ season_word +:+ " Olympics"); Py.Eol].

(** [re.match(rf"(\d{{4}} {season} Olympics)", text)] *)
Definition PAGE_RE (season_word : string) : Py.regex :=
  Py.Group 1 (Py.cats [Py.Class Py.isdigit; Py.Class Py.isdigit; Py.Class Py.isdigit;
                       Py.Class Py.isdigit; Py.Lit (" " +:+ season_word +:+ " Olympics")]).

(** [re.compile(r",\s*([^,]+?)\s*\(([A-Z]+)\)\s*$")] *)
Definition _BORN_RE : Py.regex :=
  Py.cats [Py.Lit ","; Py.Rep Py.isspace 0 true;
           Py.Group 1 (Py.Rep (Py.not_char ",") 1 false);
           Py.Rep Py.isspace 0 true; Py.Lit "(";
           Py.Group 2 (Py.Rep Py.isupper 1 true); Py.Lit ")";
           Py.Rep Py.isspace 0 true; Py.Eol].

(** [born_state(row)] *)
Definition born_state (r : row) : string :=
  match Py.re_search _BORN_RE (get "Born" r) with
  | Some m => Py.strip (Py.group 1 m)
  | None => "Unknown"
  end.

(** [int(games[:4]) >= min_year]; a [ValueError] cannot arise behind the
    pattern test and counts as false. *)
Definition year_at_least (min_year : Z) (games : string) : bool :=
  match Py.int (Py.prefix 4 games) with
  | Some y => min_year <=? y
  | None => false
  end.

(** [make_out_fields(fieldnames)] *)
Fixpoint replace_first (old new : string) (l : list string) : list string :=
  match l with
  | [] => []
  | x :: l' => if bool_decide (x = old) then new :: l' else x :: replace_first old new l'
  end.

Definition make_out_fields (fields : list string) : list string :=
  if bool_decide ("Roles" ∈ fields) then replace_first "Roles" "Games" fields
  else if bool_decide ("Games" ∈ fields) then fields
  else "Games" :: fields.

(** [{k: row.get(k, "") for k in fields}] *)
Definition project (fields : list string) (r : row) : row :=
  foldl (λ (m : row) k, <[k := get k r]> m) ∅ fields.

(** [build_out_row(row, games_str, out_fields)] *)
Definition build_out_row (r : row) (games_str : string) (out_fields : list string) : row :=
  <["Games" := games_str]> (project out_fields r).

(** [write_csv(path, rows, fields)]: [DictWriter] with
    [extrasaction="ignore"] and the default [restval]. *)
Definition write_csv (path : string) (rs : list row) (fields : list string)
    (fs : files) : files :=
  <[path := {| fieldnames := fields; rows := project fields <$> rs |}]> fs.

(** [str(row.get("athlete_id", "")).strip()] *)
Definition athlete_id (r : row) : string := Py.strip (get "athlete_id" r).

(** [state_key_fn(row) if state_key_fn else ""] *)
Definition key_of (state_key_fn : option (row → string)) (r : row) : string :=
  match state_key_fn with
  | Some f => f r
  | None => ""
  end.

End Scrape.

(** ** [filter-by-olympics.py]: both seasons, with the output cache *)

Module FilterByOlympics.
Import Scrape.

Definition INPUT_DIR : string := "input-data".
Definition OUTPUT_DIR : string := "output-data".
Definition WINTER_DIR : string := "winter-output-data".
Definition SUMMER_DIR : string := "summer-output-data".
Definition MIN_YEAR : Z := 1924.

Definition _WINTER_RE : Py.regex := SEASON_RE "Winter".
Definition _SUMMER_RE : Py.regex := SEASON_RE "Summer".

Definition season_dir (s : season) : string :=
  match s with Winter => WINTER_DIR | Summer => SUMMER_DIR end.

(** *** The lookups built from [results.csv] *)

Record index := Index {
  seen_ids : gset string;
  winter_lookup : gmap string (list string);
  summer_lookup : gmap string (list string)
}.

Definition empty_index : index :=
  {| seen_ids := ∅; winter_lookup := ∅; summer_lookup := ∅ |}.

Definition lookup_of (s : season) (idx : index) : gmap string (list string) :=
  match s with Winter => winter_lookup idx | Summer => summer_lookup idx end.

(** [if RE.match(games) and int(games[:4]) >= MIN_YEAR and games not in
    lookup[aid]: lookup[aid].append(games)].  The [defaultdict] makes the
    entry when the third test reads it, and the append follows at once. *)
Definition add_games (re : Py.regex) (aid games : string)
    (lookup : gmap string (list string)) : gmap string (list string) :=
  let have := default [] (lookup !! aid) in
  if bool_decide (is_Some (Py.re_match re games))
     && year_at_least MIN_YEAR games
     && negb (bool_decide (games ∈ have))
  then <[aid := have ++ [games]]> lookup
  else lookup.

Definition scan_row (idx : index) (r : row) : index :=
  let aid := athlete_id r in
  let games := Py.strip (get "Games" r) in
  if bool_decide (aid = "") then idx
  else {| seen_ids := {[aid]} ∪ seen_ids idx;
          winter_lookup := add_games _WINTER_RE aid games (winter_lookup idx);
          summer_lookup := add_games _SUMMER_RE aid games (summer_lookup idx) |}.

Definition sort_lookups (idx : index) : index :=
  {| seen_ids := seen_ids idx;
     winter_lookup := Py.sorted <$> winter_lookup idx;
     summer_lookup := Py.sorted <$> summer_lookup idx |}.

(** [results.csv], then [2024-2026-us-results.csv] when it exists. *)
Definition build_index (results : list row) (new_results : option (list row))
  : index :=
  let idx := sort_lookups (foldl scan_row empty_index results) in
  match new_results with
  | Some more => sort_lookups (foldl scan_row idx more)
  | None => idx
  end.

(** *** [build_output_cache] *)

(** [{"Winter": ..., "Summer": ...}], [None] for unseen. *)
Record entry := Entry {
  winter : option (list string);
  summer : option (list string)
}.

Definition entry_get (s : season) (e : entry) : option (list string) :=
  match s with Winter => winter e | Summer => summer e end.

Definition entry_set (s : season) (games : list string) (e : entry) : entry :=
  match s with
  | Winter => {| winter := Some games; summer := summer e |}
  | Summer => {| winter := winter e; summer := Some games |}
  end.

Abbreviation cache := (gmap string entry).

(** [_output_cache.get(aid, {}).get(season)] *)
Definition cache_get (c : cache) (aid : string) (s : season)
  : option (list string) :=
  c !! aid ≫= entry_get s.

Definition _add (aid : string) (s : season) (games : list string) (c : cache)
  : cache :=
  let e := default {| winter := None; summer := None |} (c !! aid) in
  let merged :=
    match entry_get s e with
    | None => Py.sorted games
    | Some existing => Py.sorted_union existing games
    end in
  <[aid := entry_set s merged e]> c.

(** [[g.strip() for g in games_str.split(";") if g.strip()]] *)
Definition games_of (games_str : string) : list string :=
  filter (λ g, g ≠ "") (Py.strip <$> Py.split ";" games_str).

Definition cache_row (s : season) (c : cache) (r : row) : cache :=
  let aid := athlete_id r in
  if bool_decide (aid = "") then c
  else _add aid s (games_of (Py.strip (get "Games" r))) c.

Definition cache_file (fs : files) (s : season) (c : cache) (fname : string)
  : cache :=
  match fs !! path_join (season_dir s) fname with
  | None => c
  | Some f => foldl (cache_row s) c (rows f)
  end.

Definition MATCHED : list string := ["all-states.csv"; "us-born-elsewhere.csv"].

Definition build_output_cache (fs : files) : cache :=
  foldl (λ c s, foldl (cache_file fs s) c MATCHED) ∅ [Winter; Summer].

(** *** The live lookups *)

Definition page_game (s : season) (games : list string) (link : string * string)
  : list string :=
  let '(href, text) := link in
  if Py.startswith "/editions/" href
     && Py.contains (season_name s +:+ " Olympics") text
  then
    match Py.re_match (PAGE_RE (season_name s)) text with
    | Some m =>
        let g := Py.group 1 m in
        if year_at_least MIN_YEAR g && negb (bool_decide (g ∈ games))
        then games ++ [g]
        else games
    | None => games
    end
  else games.

Definition games_from_page (S : site) (aid : string) (s : season) (w : world)
  : option (list string) * world :=
  let url := BASE_URL +:+ "/athletes/" +:+ aid in
  match _fetch S url w with
  | (None, w') => (None, w')
  | (Some html, w') =>
      (Some (Py.sorted (foldl (page_game s) [] (page_links S html))), w')
  end.

(** The [for href, _text in parser.links] loop of the name search. *)
Fixpoint first_profile (S : site) (s : season) (links : list (string * string))
    (w : world) : option (list string) * world :=
  match links with
  | [] => (None, w)
  | (href, _) :: rest =>
      match Py.re_match PROFILE_RE href with
      | Some m =>
          match games_from_page S (Py.group 1 m) s w with
          | (Some games, w') => (Some games, w')
          | (None, w') => first_profile S s rest w'
          end
      | None => first_profile S s rest w
      end
  end.

Definition search_url (S : site) (parts : list string) : string :=
  BASE_URL +:+ "/athletes/quick_search?query=" +:+ quote_plus S (Py.join " " parts).

Definition search_and_find_season (S : site) (used_name : string) (s : season)
    (w : world) : option (list string) * world :=
  let parts := Py.split_ws (Py.replace "•" " " used_name) in
  match parts with
  | [] => (None, w)
  | _ =>
      match _fetch S (search_url S parts) w with
      | (None, w') => (None, w')
      | (Some html, w') => first_profile S s (page_links S html) w'
      end
  end.

(** *** [classify_athletes] *)

Section classify.
Variable S : site.
Variable seen : gset string.
Variable _output_cache : cache.
Variable out_fields : list string.
Variable s : season.
Variable lookup : gmap string (list string).
Variable state_key_fn : option (row → string).

(** The first loop: [season_rows] and [needs_scrape] ([from_cache] only
    feeds a message). *)
Definition triage (acc : list (string * row) * list row) (r : row)
  : list (string * row) * list row :=
  let '(season_rows, needs_scrape) := acc in
  let aid := athlete_id r in
  if bool_decide (aid ∈ seen) then
    match default [] (lookup !! aid) with
    | [] => (season_rows, needs_scrape)
    | games =>
        (season_rows ++
           [(key_of state_key_fn r, build_out_row r (Py.join "; " games) out_fields)],
         needs_scrape)
    end
  else
    match cache_get _output_cache aid s with
    | Some [] => (season_rows, needs_scrape)
    | Some games =>
        (season_rows ++
           [(key_of state_key_fn r,
             build_out_row r (Py.join "; " (Py.sorted games)) out_fields)],
         needs_scrape)
    | None => (season_rows, needs_scrape ++ [r])
    end.

(** [games_from_page(aid, season) if aid else
    search_and_find_season(used_name, season)] *)
Definition scrape (r : row) (w : world) : option (list string) * world :=
  let aid := athlete_id r in
  if bool_decide (aid = "")
  then search_and_find_season S (get "Used name" r) s w
  else games_from_page S aid s w.

(** The second loop, over [needs_scrape]. *)
Fixpoint scrape_all (needs_scrape : list row)
    (season_rows : list (string * row)) (no_match_rows : list row)
    (w : world) : (list (string * row) * list row) * world :=
  match needs_scrape with
  | [] => ((season_rows, no_match_rows), w)
  | r :: rest =>
      match scrape r w with
      | (None, w') =>
          scrape_all rest season_rows
            (no_match_rows ++ [build_out_row r "" out_fields]) w'
      | (Some [], w') => scrape_all rest season_rows no_match_rows w'
      | (Some games, w') =>
          scrape_all rest
            (season_rows ++
               [(key_of state_key_fn r,
                 build_out_row r (Py.join "; " (Py.sorted games)) out_fields)])
            no_match_rows w'
      end
  end.

Definition classify_athletes (athletes : list row) (w : world)
  : (list (string * row) * list row) * world :=
  let '(season_rows, needs_scrape) := foldl triage ([], []) athletes in
  scrape_all needs_scrape season_rows [] w.
End classify.

(** *** Writing one season *)

(** The [defaultdict(list)] filled by [state_season[key].append(row)]. *)
Definition group_by_key (keyed : list (string * row)) : gmap string (list row) :=
  foldl (λ (m : gmap string (list row)) kr, <[kr.1 := default [] (m !! kr.1) ++ [kr.2]]> m)
        ∅ keyed.

(** [state_season.get(state, [])] *)
Definition rows_of (m : gmap string (list row)) (state : string) : list row :=
  default [] (m !! state).

Definition COUNT_FIELDS : list string := ["state"; "number"].

Definition count_line (m : gmap string (list row)) (state : string) : option row :=
  let n := length (rows_of m state) in
  if bool_decide (n = 0%nat) then None
  else Some (<["number" := pretty n]> {["state" := state]}).

Definition by_state_path (out_dir state : string) : string :=
  path_join (path_join out_dir "by-state") (Py.replace "/" "-" state +:+ ".csv").

Definition write_state (out_dir : string) (out_fields : list string)
    (m : gmap string (list row)) (fs : files) (state : string) : files :=
  match rows_of m state with
  | [] => fs
  | rs => write_csv (by_state_path out_dir state) rs out_fields fs
  end.

(** [write_season_output]; [season] and [lookup] only feed the summary
    it prints.  The result carries the files and the returned pair. *)
Definition write_season_output (states_list : list string) (out_dir : string)
    (states_rows elsewhere_rows : list (string * row)) (no_match_all : list row)
    (out_fields elsewhere_fields : list string) (fs : files)
  : files * (list row * list row) :=
  let state_season := group_by_key states_rows in
  let states := Py.sorted states_list in
  let fs1 := <[path_join out_dir "count.csv" :=
                 {| fieldnames := COUNT_FIELDS;
                    rows := omap (count_line state_season) states |}]> fs in
  let fs2 := foldl (write_state out_dir out_fields state_season) fs1 states in
  let all_season := states ≫= rows_of state_season in
  let fs3 := write_csv (path_join out_dir "all-states.csv") all_season out_fields fs2 in
  let elsewhere_out := snd <$> elsewhere_rows in
  let fs4 := write_csv (path_join out_dir "us-born-elsewhere.csv") elsewhere_out
               (make_out_fields elsewhere_fields) fs3 in
  let fs5 := write_csv (path_join out_dir "no-match.csv") no_match_all out_fields fs4 in
  (fs5, (all_season, elsewhere_out)).

(** *** The script *)

(** [[line.strip() for line in f if line.strip()]] *)
Definition load_states (lines : list string) : list string :=
  filter (λ l, l ≠ "") (Py.strip <$> lines).

(** The two [classify_athletes] calls and the [write_season_output] call
    of one season. *)
Definition run_season (S : site) (states_list : list string) (idx : index)
    (c : cache) (out_fields elsewhere_fields : list string)
    (all_states_athletes elsewhere_athletes : list row) (s : season)
    (fs : files) (w : world) : files * world :=
  let '((season_rows, no_match_rows), w1) :=
    classify_athletes S (seen_ids idx) c out_fields s (lookup_of s idx)
      (Some born_state) all_states_athletes w in
  let '((season_elsewhere, no_match_elsewhere), w2) :=
    classify_athletes S (seen_ids idx) c out_fields s (lookup_of s idx)
      None elsewhere_athletes w1 in
  ((write_season_output states_list (season_dir s) season_rows season_elsewhere
      (no_match_rows ++ no_match_elsewhere) out_fields elsewhere_fields fs).1, w2).

(** The module body, top to bottom.  Every input is read before the first
    request; [None] is the [FileNotFoundError] of a missing mandatory
    table.  [states_txt] holds the lines of [states-list.txt]. *)
Definition main (S : site) (states_txt : list string) (fs : files) (w : world)
  : option (files * world) :=
  let states_list := load_states states_txt in
  results ← fs !! path_join INPUT_DIR "results.csv";
  let idx := build_index (rows results)
               (rows <$> fs !! path_join INPUT_DIR "2024-2026-us-results.csv") in
  let c := build_output_cache fs in
  all_states ← fs !! path_join OUTPUT_DIR "all-states.csv";
  elsewhere ← fs !! path_join OUTPUT_DIR "us-born-elsewhere.csv";
  let out_fields := make_out_fields (fieldnames all_states) in
  let '(fs1, w1) :=
    run_season S states_list idx c out_fields (fieldnames elsewhere)
      (rows all_states) (rows elsewhere) Winter fs w in
  Some (run_season S states_list idx c out_fields (fieldnames elsewhere)
          (rows all_states) (rows elsewhere) Summer fs1 w1).

End FilterByOlympics.

(** ** [filter-winter.py]: Winter only, no cache, no minimum year *)

Module FilterWinter.
Import Scrape.

Definition INPUT_DIR : string := "input-data".
Definition OUTPUT_DIR : string := "output-data".
Definition WINTER_DIR : string := "winter-output-data".

Definition _WINTER_RE : Py.regex := SEASON_RE "Winter".

Record index := Index {
  seen_ids : gset string;
  winter_lookup : gmap string (list string)
}.

Definition empty_index : index := {| seen_ids := ∅; winter_lookup := ∅ |}.

(** [if _WINTER_RE.match(games) and games not in winter_lookup[aid]:
    winter_lookup[aid].append(games)] *)
Definition add_games (aid games : string) (lookup : gmap string (list string))
  : gmap string (list string) :=
  let have := default [] (lookup !! aid) in
  if bool_decide (is_Some (Py.re_match _WINTER_RE games))
     && negb (bool_decide (games ∈ have))
  then <[aid := have ++ [games]]> lookup
  else lookup.

Definition scan_row (idx : index) (r : row) : index :=
  let aid := athlete_id r in
  let games := Py.strip (get "Games" r) in
  if bool_decide (aid = "") then idx
  else {| seen_ids := {[aid]} ∪ seen_ids idx;
          winter_lookup := add_games aid games (winter_lookup idx) |}.

Definition build_index (results : list row) : index :=
  let idx := foldl scan_row empty_index results in
  {| seen_ids := seen_ids idx; winter_lookup := Py.sorted <$> winter_lookup idx |}.

Definition page_game (games : list string) (link : string * string)
  : list string :=
  let '(href, text) := link in
  if Py.startswith "/editions/" href && Py.contains "Winter Olympics" text
  then
    match Py.re_match (PAGE_RE "Winter") text with
    | Some m =>
        let g := Py.group 1 m in
        if negb (bool_decide (g ∈ games)) then games ++ [g] else games
    | None => games
    end
  else games.

Definition winter_games_from_page (S : site) (aid : string) (w : world)
  : option (list string) * world :=
  let url := BASE_URL +:+ "/athletes/" +:+ aid in
  match _fetch S url w with
  | (None, w') => (None, w')
  | (Some html, w') =>
      (Some (Py.sorted (foldl page_game [] (page_links S html))), w')
  end.

Fixpoint first_profile (S : site) (links : list (string * string)) (w : world)
  : option (list string) * world :=
  match links with
  | [] => (None, w)
  | (href, _) :: rest =>
      match Py.re_match PROFILE_RE href with
      | Some m =>
          match winter_games_from_page S (Py.group 1 m) w with
          | (Some games, w') => (Some games, w')
          | (None, w') => first_profile S rest w'
          end
      | None => first_profile S rest w
      end
  end.

Definition search_url (S : site) (parts : list string) : string :=
  BASE_URL +:+ "/athletes/quick_search?query=" +:+ quote_plus S (Py.join " " parts).

Definition search_and_find_winter (S : site) (used_name : string) (w : world)
  : option (list string) * world :=
  let parts := Py.split_ws (Py.replace "•" " " used_name) in
  match parts with
  | [] => (None, w)
  | _ =>
      match _fetch S (search_url S parts) w with
      | (None, w') => (None, w')
      | (Some html, w') => first_profile S (page_links S html) w'
      end
  end.

Section classify.
Variable S : site.
Variable idx : index.
Variable out_fields : list string.
Variable state_key_fn : option (row → string).

Definition triage (acc : list (string * row) * list row) (r : row)
  : list (string * row) * list row :=
  let '(winter_rows, needs_scrape) := acc in
  let aid := athlete_id r in
  if bool_decide (aid ∈ seen_ids idx) then
    match default [] (winter_lookup idx !! aid) with
    | [] => (winter_rows, needs_scrape)
    | games =>
        (winter_rows ++
           [(key_of state_key_fn r, build_out_row r (Py.join "; " games) out_fields)],
         needs_scrape)
    end
  else (winter_rows, needs_scrape ++ [r]).

Definition scrape (r : row) (w : world) : option (list string) * world :=
  let aid := athlete_id r in
  if bool_decide (aid = "")
  then search_and_find_winter S (get "Used name" r) w
  else winter_games_from_page S aid w.

Fixpoint scrape_all (needs_scrape : list row)
    (winter_rows : list (string * row)) (no_match_rows : list row)
    (w : world) : (list (string * row) * list row) * world :=
  match needs_scrape with
  | [] => ((winter_rows, no_match_rows), w)
  | r :: rest =>
      match scrape r w with
      | (None, w') =>
          scrape_all rest winter_rows
            (no_match_rows ++ [build_out_row r "" out_fields]) w'
      | (Some [], w') => scrape_all rest winter_rows no_match_rows w'
      | (Some games, w') =>
          scrape_all rest
            (winter_rows ++
               [(key_of state_key_fn r,
                 build_out_row r (Py.join "; " (Py.sorted games)) out_fields)])
            no_match_rows w'
      end
  end.

Definition classify_athletes (athletes : list row) (w : world)
  : (list (string * row) * list row) * world :=
  let '(winter_rows, needs_scrape) := foldl triage ([], []) athletes in
  scrape_all needs_scrape winter_rows [] w.
End classify.

(** The module-level writing of [count.csv], [by-state/], [all-states.csv],
    [us-born-elsewhere.csv] and [no-match.csv] under [WINTER_DIR]. *)
Definition write_winter_output (states_list : list string)
    (winter_rows winter_elsewhere : list (string * row)) (all_no_match : list row)
    (out_fields elsewhere_fields : list string) (fs : files) : files :=
  let state_winter := FilterByOlympics.group_by_key winter_rows in
  let states := Py.sorted states_list in
  let fs1 := <[path_join WINTER_DIR "count.csv" :=
                 {| fieldnames := FilterByOlympics.COUNT_FIELDS;
                    rows := omap (FilterByOlympics.count_line state_winter) states |}]> fs in
  let fs2 := foldl (FilterByOlympics.write_state WINTER_DIR out_fields state_winter)
               fs1 states in
  let all_winter := states ≫= FilterByOlympics.rows_of state_winter in
  let fs3 := write_csv (path_join WINTER_DIR "all-states.csv") all_winter out_fields fs2 in
  let elsewhere_out := snd <$> winter_elsewhere in
  let fs4 := write_csv (path_join WINTER_DIR "us-born-elsewhere.csv") elsewhere_out
               (make_out_fields elsewhere_fields) fs3 in
  write_csv (path_join WINTER_DIR "no-match.csv") all_no_match out_fields fs4.

End FilterWinter.

(** ** [olympians-by-state.py]: the birth-place parser *)

Module OlympiansByState.

(** [parse_born(born_str)]: [(state, country_code)], or [None] for the
    pair [(None, None)]. *)
Definition parse_born (born_str : string) : option (string * string) :=
  if bool_decide (born_str = "") then None
  else
    match Py.re_search Scrape._BORN_RE born_str with
    | Some m => Some (Py.strip (Py.group 1 m), Py.strip (Py.group 2 m))
    | None => None
    end.

(** [is_us_state_born = country == "USA" and state in states_set] *)
Definition is_us_state_born (states_list : list string) (athlete : row) : bool :=
  match parse_born (get "Born" athlete) with
  | Some (state, country) =>
      bool_decide (country = "USA") && bool_decide (state ∈ states_list)
  | None => false
  end.

(** One turn of the [for athlete in athletes] loop: [state_athletes] and
    [us_noc_born_elsewhere]. *)
Definition categorize (states_list : list string)
    (acc : gmap string (list row) * list row) (athlete : row)
  : gmap string (list row) * list row :=
  let '(state_athletes, us_noc_born_elsewhere) := acc in
  let state_born := is_us_state_born states_list athlete in
  (match parse_born (get "Born" athlete) with
   | Some (state, _) =>
       if state_born
       then <[state := default [] (state_athletes !! state) ++ [athlete]]> state_athletes
       else state_athletes
   | None => state_athletes
   end,
   if Py.contains "United States" (get "NOC" athlete) && negb state_born
   then us_noc_born_elsewhere ++ [athlete]
   else us_noc_born_elsewhere).

(** [all_us_athletes]: the states in sorted order, each with its athletes. *)
Definition all_us_athletes (states_list : list string)
    (state_athletes : gmap string (list row)) : list row :=
  Py.sorted states_list ≫= (λ state, default [] (state_athletes !! state)).

(** The rows of [count.csv]: [(state, count)] for the states with athletes. *)
Definition count_rows (states_list : list string)
    (state_athletes : gmap string (list row)) : list (string * nat) :=
  omap (λ state,
          let count := length (default [] (state_athletes !! state)) in
          if bool_decide (count = 0%nat) then None else Some (state, count))
       (Py.sorted states_list).

(** [for col in new_fields: if col not in fieldnames: fieldnames.append(col)] *)
Definition merge_fields (fieldnames new_fields : list string) : list string :=
  foldl (λ fields col, if bool_decide (col ∈ fields) then fields else fields ++ [col])
        fieldnames new_fields.

(** The merge of [2024-2026-us-bios.csv] into [bios_rows]: a new row is
    appended when its identifier is not empty and not seen yet.  The
    identifiers are compared as they stand, without [strip]. *)
Definition merge_bios (bios_rows new_rows : list row) : list row :=
  (foldl (λ (acc : list row * gset string) r,
            let aid := get "athlete_id" r in
            if bool_decide (aid ≠ "") && negb (bool_decide (aid ∈ acc.2))
            then (acc.1 ++ [r], {[aid]} ∪ acc.2)
            else acc)
         (bios_rows, list_to_set (get "athlete_id" <$> bios_rows)) new_rows).1.

End OlympiansByState.

(** ** Notions the statements are written in *)

Module Spec.
Import Scrape.

(** [rejected page links w w']: run from [w], the name search finds no
    usable profile among [links] and leaves [w']: each link either is not
    a profile link or its page lookup fails. *)
Inductive rejected (page : string → world → option (list string) * world)
  : list (string * string) → world → world → Prop :=
  | rejected_nil w : rejected page [] w w
  | rejected_other href text rest w w' :
      Py.re_match PROFILE_RE href = None →
      rejected page rest w w' →
      rejected page ((href, text) :: rest) w w'
  | rejected_failed href text m rest w w1 w' :
      Py.re_match PROFILE_RE href = Some m →
      page (Py.group 1 m) w = (None, w1) →
      rejected page rest w1 w' →
      rejected page ((href, text) :: rest) w w'.

(** The edition test of the Winter lookup of [filter-by-olympics.py]. *)
Definition proper_winter (games : string) : bool :=
  bool_decide (is_Some (Py.re_match FilterByOlympics._WINTER_RE games))
  && year_at_least FilterByOlympics.MIN_YEAR games.

(** The edition test of [filter-winter.py]: the pattern alone. *)
Definition any_winter (games : string) : bool :=
  bool_decide (is_Some (Py.re_match FilterWinter._WINTER_RE games)).

(** One row of a results table scanned into one lookup, for a given
    edition test. *)
Definition scan_lookup (keep : string → bool) (lookup : gmap string (list string))
    (r : row) : gmap string (list string) :=
  let aid := athlete_id r in
  let games := Py.strip (get "Games" r) in
  let have := default [] (lookup !! aid) in
  if bool_decide (aid = "") then lookup
  else if keep games && negb (bool_decide (games ∈ have))
       then <[aid := have ++ [games]]> lookup
       else lookup.

(** Some row of [rs] puts the edition [games] under [aid]. *)
Definition sources (keep : string → bool) (rs : list row) (aid games : string) : Prop :=
  ∃ r, r ∈ rs ∧ athlete_id r = aid ∧ aid ≠ "" ∧ Py.strip (get "Games" r) = games
       ∧ keep games = true.

(** Every stored list is non-empty and free of repetitions. *)
Definition well_kept (lookup : gmap string (list string)) : Prop :=
  ∀ aid l, lookup !! aid = Some l → NoDup l ∧ l ≠ [].

(** The rows [build_output_cache] reads for one season, in reading order. *)
Definition matched_rows (fs : files) (s : season) : list row :=
  FilterByOlympics.MATCHED ≫=
    (λ fname, default [] (rows <$> fs !! path_join (FilterByOlympics.season_dir s) fname)).

(** The [Games] cell of a matched row, cut at the semicolons. *)
Definition tokens_of (r : row) : list string :=
  FilterByOlympics.games_of (Py.strip (get "Games" r)).

(** What [_add] stores over the state [old]. *)
Definition merge_games (old : option (list string)) (games : list string)
  : option (list string) :=
  Some match old with
       | None => Py.sorted games
       | Some existing => Py.sorted_union existing games
       end.

(** A token that survives [join] and the cut of [games_of] unchanged: not
    empty, no blank at either end, no semicolon. *)
Definition tidy (g : string) : Prop :=
  let l := Py.chars g in
  l ≠ [] ∧ Py.lstrip_chars l = l ∧ Py.lstrip_chars (rev l) = rev l ∧ ";"%char ∉ l.

(** A site whose answer depends on the URL alone. *)
Definition stateless (S : site) : Prop :=
  ∀ history url, server S history url = server S [] url.

(** What the live lookup of a row returns, read off a fresh start. *)
Definition scraped (S : site) (s : season) (r : row) : option (list string) :=
  (FilterByOlympics.scrape S s r start).1.

(** The first loop of [classify_athletes] on one row: [None] sends the row
    to the scrape list, [Some None] drops it, [Some (Some cell)] matches it
    with that [Games] cell. *)
Definition first_pass (seen : gset string) (c : FilterByOlympics.cache)
    (s : season) (lookup : gmap string (list string)) (r : row)
  : option (option string) :=
  let aid := athlete_id r in
  if bool_decide (aid ∈ seen) then
    Some match default [] (lookup !! aid) with
         | [] => None
         | games => Some (Py.join "; " games)
         end
  else
    match FilterByOlympics.cache_get c aid s with
    | Some [] => Some None
    | Some games => Some (Some (Py.join "; " (Py.sorted games)))
    | None => None
    end.

(** The second loop on one row. *)
Definition second_pass (S : site) (s : season) (r : row) : option string :=
  match scraped S s r with
  | Some (g :: games) => Some (Py.join "; " (Py.sorted (g :: games)))
  | _ => None
  end.

(** The [Games] cell of the row's season output, if it has one. *)
Definition games_cell (S : site) (seen : gset string) (c : FilterByOlympics.cache)
    (s : season) (lookup : gmap string (list string)) (r : row) : option string :=
  match first_pass seen c s lookup r with
  | Some cell => cell
  | None => second_pass S s r
  end.

Definition out_entry (key : option (row → string)) (out_fields : list string)
    (r : row) (cell : string) : string * row :=
  (key_of key r, build_out_row r cell out_fields).

(** The season row the first loop appends for [r], if any. *)
Definition known_entry (seen : gset string) (c : FilterByOlympics.cache)
    (out_fields : list string) (s : season) (lookup : gmap string (list string))
    (key : option (row → string)) (r : row) : option (string * row) :=
  match first_pass seen c s lookup r with
  | Some (Some cell) => Some (out_entry key out_fields r cell)
  | _ => None
  end.

(** The season row of [r], whichever loop appends it. *)
Definition season_entry (S : site) (seen : gset string) (c : FilterByOlympics.cache)
    (out_fields : list string) (s : season) (lookup : gmap string (list string))
    (key : option (row → string)) (r : row) : option (string * row) :=
  out_entry key out_fields r <$> games_cell S seen c s lookup r.

(** The rows [write_season_output] puts in [all-states.csv] and in
    [us-born-elsewhere.csv]. *)
Definition all_states_rows (states_list out_fields : list string)
    (keyed : list (string * row)) : list row :=
  project out_fields <$>
    (Py.sorted states_list ≫=
       FilterByOlympics.rows_of (FilterByOlympics.group_by_key keyed)).

Definition elsewhere_rows (elsewhere_fields : list string)
    (keyed : list (string * row)) : list row :=
  project (make_out_fields elsewhere_fields) <$> (snd <$> keyed).

(** The paths [write_season_output] writes for a season. *)
Definition written (s : season) (p : string) : Prop :=
  p = path_join (FilterByOlympics.season_dir s) "count.csv"
  ∨ (∃ state, p = FilterByOlympics.by_state_path (FilterByOlympics.season_dir s) state)
  ∨ p = path_join (FilterByOlympics.season_dir s) "all-states.csv"
  ∨ p = path_join (FilterByOlympics.season_dir s) "us-born-elsewhere.csv"
  ∨ p = path_join (FilterByOlympics.season_dir s) "no-match.csv".

(** The characters [join] puts after the first token. *)
Definition tail_chars (ts : list string) : list ascii :=
  ts ≫= (λ t, ";"%char :: " "%char :: Py.chars t).

End Spec.

(** ** Notions of the further statements *)

Module Notion.
Import Scrape.

(** An event that opens or closes an anchor. *)
Definition anchor_tag (e : event) : bool :=
  match e with
  | StartTag tag _ | EndTag tag => bool_decide (tag = "a")
  | Data _ => false
  end.

(** The text events among [events], in order. *)
Definition data_of (events : list event) : list string :=
  omap (λ e, match e with Data d => Some d | _ => None end) events.

(** The number of anchors opened, and closed, in [events]. *)
Definition starts (events : list event) : nat :=
  length (filter (λ e, match e with
                       | StartTag tag _ => bool_decide (tag = "a")
                       | _ => false
                       end = true) events).

Definition ends (events : list event) : nat :=
  length (filter (λ e, match e with
                       | EndTag tag => bool_decide (tag = "a")
                       | _ => false
                       end = true) events).

(** The edition test of the Summer lookup of [filter-by-olympics.py]. *)
Definition proper_summer (games : string) : bool :=
  bool_decide (is_Some (Py.re_match FilterByOlympics._SUMMER_RE games))
  && year_at_least FilterByOlympics.MIN_YEAR games.

(** The edition test of the lookup of season [s]. *)
Definition proper (s : season) : string → bool :=
  match s with Winter => Spec.proper_winter | Summer => proper_summer end.

(** An edition as the page lookups return it: four digits, a blank, the
    season and [Olympics]. *)
Definition edition_of (s : season) (g : string) : Prop :=
  ∃ d1 d2 d3 d4,
    Py.isdigit d1 = true ∧ Py.isdigit d2 = true ∧ Py.isdigit d3 = true
    ∧ Py.isdigit d4 = true
    ∧ g = Py.str (d1 :: d2 :: d3 :: d4 :: Py.chars (" " +:+ season_name s +:+ " Olympics")).

(** The link [link] of an athlete page names the edition [g] of season
    [s]: it leads to an edition and its text starts with the edition. *)
Definition names_edition (s : season) (link : string * string) (g : string) : Prop :=
  Py.startswith "/editions/" link.1 = true
  ∧ Py.contains (season_name s +:+ " Olympics") link.2 = true
  ∧ ∃ m, Py.re_match (PAGE_RE (season_name s)) link.2 = Some m ∧ Py.group 1 m = g.

(** The answer the site gives to the [i]-th attempt of a [_fetch] that
    started in world [w]. *)
Definition answer (S : site) (url : string) (w : world) (i : nat) : response :=
  server S (requests w ++ replicate i url) url.

(** From [w] to [w'] requests were only added, each after one sleep, and
    every sleep lasted between [REQUEST_DELAY] and [MAX_DELAY] seconds. *)
Definition paced (w w' : world) : Prop :=
  ∃ delays urls,
    slept w' = slept w ++ delays
    ∧ requests w' = requests w ++ urls
    ∧ length delays = length urls
    ∧ Forall (λ d, REQUEST_DELAY ≤ d ≤ MAX_DELAY) delays.

End Notion.

(** ** Sample inputs *)

Module Sample.
Import Scrape.

(** A site that throttles every request. *)
Definition throttled : site :=
  {| server := λ _ _, HTTPError 429; feed := λ _, []; quote_plus := id |}.

Definition athlete : row :=
  <["Born" := "12 May 1990 in Helena, Montana (USA)"]>
  (<["Used name" := "Ann•Lee"]> {["athlete_id" := "5"]}).

Definition search_url : string :=
  "https://www.olympedia.org/athletes/quick_search?query=Ann Lee".

(** A site with one search page listing two profiles; the first profile
    is broken, the second lists a Winter and a Summer edition. *)
Definition olympedia : site :=
  {| server := λ _ url,
       if bool_decide (url = search_url) then Ok200 "search"
       else if bool_decide (url = "https://www.olympedia.org/athletes/5")
       then Ok200 "profile"
       else HTTPError 500;
     feed := λ html,
       if bool_decide (html = "search")
       then [StartTag "a" [("href", "/athletes/7")]; Data "Ann Lee (1)"; EndTag "a";
             StartTag "a" [("href", "/athletes/5")]; Data "Ann Lee (2)"; EndTag "a"]
       else [StartTag "a" [("href", "/editions/62")]; Data "2022 Winter Olympics";
             EndTag "a";
             StartTag "a" [("href", "/editions/1")]; Data "1896 Summer Olympics";
             EndTag "a"];
     quote_plus := id |}.

Definition after_search : world :=
  {| _current_delay := 4; slept := [4]; requests := [search_url] |}.
Definition after_miss : world :=
  {| _current_delay := 4; slept := [4; 4];
     requests := [search_url; "https://www.olympedia.org/athletes/7"] |}.
Definition after_hit : world :=
  {| _current_delay := 4; slept := [4; 4; 4];
     requests := [search_url; "https://www.olympedia.org/athletes/7";
                  "https://www.olympedia.org/athletes/5"] |}.

(** A prior matched table with a row whose [Games] cell is empty. *)
Definition blank_games_prior : files :=
  {[ "winter-output-data/all-states.csv" :=
       {| fieldnames := ["athlete_id"; "Games"];
          rows := [<["Games" := ""]> {["athlete_id" := "7"]}] |} ]}.

Definition EDITIONS : list string :=
  ["1920 Winter Olympics"; "1924 Winter Olympics"; "1924 Winter Youth Olympics"].

Definition result_row (aid games : string) : row :=
  <["Games" := games]> {["athlete_id" := aid]}.

Definition mixed_results : list row :=
  result_row "1" <$> EDITIONS.

(** A cache that holds one Winter edition for athlete 5. *)
Definition cached : FilterByOlympics.cache :=
  {[ "5" := {| FilterByOlympics.winter := Some ["2022 Winter Olympics"];
               FilterByOlympics.summer := None |} ]}.

(** Prior output in which athlete 5 appears in a no-match table only. *)
Definition prior_with_no_match : files :=
  {[ "winter-output-data/no-match.csv" :=
       {| fieldnames := ["athlete_id"; "Games"];
          rows := [result_row "5" ""] |} ]}.

Definition bio (aid name : string) : row :=
  <["Born" := "12 May 1990 in Helena, Montana (USA)"]>
  (<["Used name" := name]> {["athlete_id" := aid]}).

Definition BIO_FIELDS : list string := ["Roles"; "Used name"; "Born"; "athlete_id"].

(** The inputs of a first run: athlete 9 is in [results.csv]; athlete 5
    and an athlete without identifier are not. *)
Definition inputs : files :=
  <["input-data/results.csv" :=
      {| fieldnames := ["Games"; "athlete_id"];
         rows := [result_row "9" "2022 Winter Olympics"] |}]>
  (<["output-data/all-states.csv" :=
      {| fieldnames := BIO_FIELDS;
         rows := [bio "5" "Ann•Lee"; bio "9" "Bob•Ray"; bio "" "Ann•Lee"] |}]>
  {["output-data/us-born-elsewhere.csv" :=
      {| fieldnames := BIO_FIELDS; rows := [] |}]}).

Definition first_run : option (files * world) :=
  FilterByOlympics.main olympedia ["Montana"] inputs start.

Definition after_first : files := default ∅ (fst <$> first_run).

Definition world_after_first : world := default start (snd <$> first_run).

Definition second_run : option (files * world) :=
  FilterByOlympics.main olympedia ["Montana"] after_first start.

(** The identifiers listed in a table after a run, in file order. *)
Definition ids_in (path : string) (run : option (files * world)) : list string :=
  get "athlete_id" <$> default [] (rows <$> (run ≫= (λ fw, fw.1 !! path))).

(** A site that answers as [olympedia] does for its first three requests
    and refuses every later one. *)
Definition fickle : site :=
  {| server := λ history url,
       if decide (length history < 3)%nat then server olympedia history url
       else HTTPError 500;
     feed := feed olympedia;
     quote_plus := id |}.

(** Inputs with the athlete without identifier alone. *)
Definition name_only_inputs : files :=
  <["output-data/all-states.csv" :=
      {| fieldnames := BIO_FIELDS; rows := [bio "" "Ann•Lee"] |}]> inputs.

Definition fickle_first_run : option (files * world) :=
  FilterByOlympics.main fickle ["Montana"] name_only_inputs start.

(** The second run goes on in the world the first one left. *)
Definition fickle_second_run : option (files * world) :=
  FilterByOlympics.main fickle ["Montana"]
    (default ∅ (fst <$> fickle_first_run)) (default start (snd <$> fickle_first_run)).

(** The inputs of a first run that finds a matched table in which athlete
    5 has an empty [Games] cell. *)
Definition inputs_with_blank_prior : files :=
  <["winter-output-data/all-states.csv" :=
      {| fieldnames := ["athlete_id"; "Games"]; rows := [result_row "5" ""] |}]> inputs.

Definition blank_first_run : option (files * world) :=
  FilterByOlympics.main olympedia ["Montana"] inputs_with_blank_prior start.

Definition blank_second_run : option (files * world) :=
  FilterByOlympics.main olympedia ["Montana"]
    (default ∅ (fst <$> blank_first_run)) start.

End Sample.

(** * Proofs *)

Import Scrape.

(** ** The fetcher *)

Lemma attempts_delay S n url d w :
  _current_delay (attempts S n url d w).2 = _current_delay w
  ∨ _current_delay (attempts S n url d w).2 = REQUEST_DELAY.
Proof.
  revert d w. induction n as [|n IH]; intros d w; simpl; [by left|].
  destruct (server S (requests w) url) as [body|code|]; simpl; [by right| |by left].
  destruct (code =? 429); [|by left].
  match goal with |- context [attempts S n url ?d' ?w'] => destruct (IH d' w') as [->| ->] end;
    [by left|by right].
Qed.

Lemma fetch_delay_invariant S url w :
  _current_delay w = REQUEST_DELAY →
  _current_delay (_fetch S url w).2 = REQUEST_DELAY.
Proof.
  intros Hw. unfold _fetch.
  destruct (attempts_delay S MAX_RETRIES url (_current_delay w) w) as [H|H];
    rewrite H; done.
Qed.

(** C1 (the code departs from it).  Against a site that throttles every
    request, a first [_fetch] doubles its delay up to the cap and gives up,
    yet leaves [_current_delay] at the base value: the doubling goes to the
    local [delay] only.  The next [_fetch] starts again at 4 seconds, not
    at 60. *)
Theorem fetch_backoff_not_shared :
  let first := _fetch Sample.throttled "https://www.olympedia.org/athletes/1" start in
  let second := _fetch Sample.throttled "https://www.olympedia.org/athletes/2" first.2 in
  first.1 = None
  ∧ slept first.2 = [4; 8; 16; 32; 60; 60]
  ∧ _current_delay first.2 = 4
  ∧ slept second.2 = slept first.2 ++ [4; 8; 16; 32; 60; 60].
Proof. vm_compute. done. Qed.

(** ** Classification *)
Module ByOlympics.
Import FilterByOlympics.
Section classify.
Context (S : site) (seen : gset string) (c : cache) (out_fields : list string)
  (s : season) (lookup : gmap string (list string))
  (key : option (row → string)).

Abbreviation triage := (triage seen c out_fields s lookup key).
Abbreviation scrape_all := (scrape_all S out_fields s key).
Abbreviation classify := (classify_athletes S seen c out_fields s lookup key).

Lemma triage_acc acc l :
  foldl triage acc l
  = (acc.1 ++ (foldl triage ([], []) l).1, acc.2 ++ (foldl triage ([], []) l).2).
Proof.
  revert acc. induction l as [|r l IH] using rev_ind; intros [a b]; simpl.
  { by rewrite !app_nil_r. }
  rewrite !foldl_app. simpl. rewrite (IH (a, b)). simpl.
  destruct (foldl triage ([], []) l) as [a' b']. simpl. unfold FilterByOlympics.triage.
  repeat case_match; simpl; by rewrite ?app_assoc.
Qed.

Lemma triage_app l1 l2 :
  foldl triage ([], []) (l1 ++ l2)
  = ((foldl triage ([], []) l1).1 ++ (foldl triage ([], []) l2).1,
     (foldl triage ([], []) l1).2 ++ (foldl triage ([], []) l2).2).
Proof. by rewrite foldl_app, triage_acc. Qed.

Lemma scrape_all_acc ns a nm w :
  scrape_all ns a nm w
  = ((a ++ (scrape_all ns [] [] w).1.1, nm ++ (scrape_all ns [] [] w).1.2),
     (scrape_all ns [] [] w).2).
Proof.
  revert a nm w. induction ns as [|r ns IH]; intros a nm w; simpl.
  { by rewrite !app_nil_r. }
  destruct (scrape S s r w) as [[[|g gs]|] w'].
  - apply IH.
  - rewrite (IH (a ++ _)), (IH [_]). simpl. by rewrite <- app_assoc.
  - rewrite (IH _ (nm ++ _)), (IH _ [_]). simpl. by rewrite <- app_assoc.
Qed.

Lemma classify_unfold l w :
  classify l w
  = (((foldl triage ([], []) l).1
        ++ (scrape_all (foldl triage ([], []) l).2 [] [] w).1.1,
      (scrape_all (foldl triage ([], []) l).2 [] [] w).1.2),
     (scrape_all (foldl triage ([], []) l).2 [] [] w).2).
Proof.
  unfold classify_athletes. destruct (foldl triage ([], []) l) as [a b]. simpl.
  by rewrite scrape_all_acc.
Qed.

Lemma triage_known_empty r :
  athlete_id r ∈ seen → default [] (lookup !! athlete_id r) = [] →
  foldl triage ([], []) [r] = ([], []).
Proof.
  intros Hseen Hnone. simpl. rewrite bool_decide_eq_true_2 by done. by rewrite Hnone.
Qed.

Lemma triage_cached r games :
  athlete_id r ∉ seen → cache_get c (athlete_id r) s = Some games →
  foldl triage ([], []) [r]
  = (match games with
     | [] => []
     | _ => [(key_of key r, build_out_row r (Py.join "; " (Py.sorted games)) out_fields)]
     end, []).
Proof.
  intros Hseen Hc. simpl. rewrite bool_decide_eq_false_2 by done. rewrite Hc.
  by destruct games.
Qed.

Lemma classify_skip pre r post w :
  foldl triage ([], []) [r] = ([], []) →
  classify (pre ++ r :: post) w = classify (pre ++ post) w.
Proof.
  intros Hr. rewrite !classify_unfold.
  rewrite (triage_app pre (r :: post)), (triage_app pre post).
  change (r :: post) with ([r] ++ post). rewrite (triage_app [r] post), Hr. done.
Qed.
End classify.
End ByOlympics.

Module WinterOnly.
Import FilterWinter.
Section classify.
Context (S : site) (idx : index) (out_fields : list string)
  (key : option (row → string)).

Abbreviation triage := (triage idx out_fields key).
Abbreviation scrape_all := (scrape_all S out_fields key).
Abbreviation classify := (classify_athletes S idx out_fields key).

Lemma winter_triage_acc acc l :
  foldl triage acc l
  = (acc.1 ++ (foldl triage ([], []) l).1, acc.2 ++ (foldl triage ([], []) l).2).
Proof.
  revert acc. induction l as [|r l IH] using rev_ind; intros [a b]; simpl.
  { by rewrite !app_nil_r. }
  rewrite !foldl_app. simpl. rewrite (IH (a, b)). simpl.
  destruct (foldl triage ([], []) l) as [a' b']. simpl. unfold FilterWinter.triage.
  repeat case_match; simpl; by rewrite ?app_assoc.
Qed.

Lemma winter_triage_app l1 l2 :
  foldl triage ([], []) (l1 ++ l2)
  = ((foldl triage ([], []) l1).1 ++ (foldl triage ([], []) l2).1,
     (foldl triage ([], []) l1).2 ++ (foldl triage ([], []) l2).2).
Proof. by rewrite foldl_app, winter_triage_acc. Qed.

Lemma winter_scrape_all_acc ns a nm w :
  scrape_all ns a nm w
  = ((a ++ (scrape_all ns [] [] w).1.1, nm ++ (scrape_all ns [] [] w).1.2),
     (scrape_all ns [] [] w).2).
Proof.
  revert a nm w. induction ns as [|r ns IH]; intros a nm w; simpl.
  { by rewrite !app_nil_r. }
  destruct (scrape S r w) as [[[|g gs]|] w'].
  - apply IH.
  - rewrite (IH (a ++ _)), (IH [_]). simpl. by rewrite <- app_assoc.
  - rewrite (IH _ (nm ++ _)), (IH _ [_]). simpl. by rewrite <- app_assoc.
Qed.

Lemma winter_classify_unfold l w :
  classify l w
  = (((foldl triage ([], []) l).1
        ++ (scrape_all (foldl triage ([], []) l).2 [] [] w).1.1,
      (scrape_all (foldl triage ([], []) l).2 [] [] w).1.2),
     (scrape_all (foldl triage ([], []) l).2 [] [] w).2).
Proof.
  unfold classify_athletes. destruct (foldl triage ([], []) l) as [a b]. simpl.
  by rewrite winter_scrape_all_acc.
Qed.

Lemma winter_classify_skip pre r post w :
  foldl triage ([], []) [r] = ([], []) →
  classify (pre ++ r :: post) w = classify (pre ++ post) w.
Proof.
  intros Hr. rewrite !winter_classify_unfold.
  rewrite (winter_triage_app pre (r :: post)), (winter_triage_app pre post).
  change (r :: post) with ([r] ++ post). rewrite (winter_triage_app [r] post), Hr. done.
Qed.
End classify.
End WinterOnly.


(** C3.  An athlete whose identifier is in [seen_ids] and whose lookup
    list for the season is empty leaves no trace: classified alone it
    yields no season row, no no-match row and no request, and dropping it
    from any input list changes neither the rows nor the world.  This holds
    for both scripts. *)
Theorem known_without_editions_is_skipped (S : site) (seen : gset string)
    (c : FilterByOlympics.cache) (out_fields : list string) (s : season)
    (lookup : gmap string (list string)) (key : option (row → string))
    (pre post : list row) (r : row) (w : world) :
  athlete_id r ∈ seen →
  default [] (lookup !! athlete_id r) = [] →
  FilterByOlympics.classify_athletes S seen c out_fields s lookup key [r] w
    = (([], []), w)
  ∧ FilterByOlympics.classify_athletes S seen c out_fields s lookup key
      (pre ++ r :: post) w
    = FilterByOlympics.classify_athletes S seen c out_fields s lookup key
        (pre ++ post) w
  ∧ FilterWinter.classify_athletes S
      {| FilterWinter.seen_ids := seen; FilterWinter.winter_lookup := lookup |}
      out_fields key [r] w
    = (([], []), w)
  ∧ FilterWinter.classify_athletes S
      {| FilterWinter.seen_ids := seen; FilterWinter.winter_lookup := lookup |}
      out_fields key (pre ++ r :: post) w
    = FilterWinter.classify_athletes S
        {| FilterWinter.seen_ids := seen; FilterWinter.winter_lookup := lookup |}
        out_fields key (pre ++ post) w.
Proof.
  intros Hseen Hnone.
  assert (foldl (FilterByOlympics.triage seen c out_fields s lookup key) ([], []) [r]
          = ([], [])) as H1 by by apply ByOlympics.triage_known_empty.
  assert (foldl (FilterWinter.triage
            {| FilterWinter.seen_ids := seen; FilterWinter.winter_lookup := lookup |}
            out_fields key) ([], []) [r] = ([], [])) as H2.
  { simpl. rewrite bool_decide_eq_true_2 by done. by rewrite Hnone. }
  split_and!.
  - unfold FilterByOlympics.classify_athletes. by rewrite H1.
  - by apply ByOlympics.classify_skip.
  - unfold FilterWinter.classify_athletes. by rewrite H2.
  - by apply WinterOnly.winter_classify_skip.
Qed.

(** C3, an instance. *)
Lemma known_without_editions_is_skipped_witness :
  athlete_id Sample.athlete ∈ ({["5"]} : gset string)
  ∧ default [] ((∅ : gmap string (list string)) !! athlete_id Sample.athlete) = []
  ∧ FilterByOlympics.classify_athletes Sample.throttled {["5"]} ∅ ["athlete_id"] Winter ∅
      (Some born_state) [Sample.athlete] start = (([], []), start).
Proof.
  assert (athlete_id Sample.athlete ∈ ({["5"]} : gset string)) as H1
    by (apply (bool_decide_unpack _); vm_compute; exact I).
  assert (default [] ((∅ : gmap string (list string)) !! athlete_id Sample.athlete) = [])
    as H2 by reflexivity.
  split_and!; [exact H1|exact H2|].
  exact (proj1 (known_without_editions_is_skipped Sample.throttled {["5"]} ∅ ["athlete_id"]
                  Winter ∅ (Some born_state) [] [] Sample.athlete start H1 H2)).
Defined.


Section first_profile.
Import FilterByOlympics.
Context (S : site) (s : season).

Lemma first_profile_rejected links w w' :
  Spec.rejected (λ aid, games_from_page S aid s) links w w' →
  first_profile S s links w = (None, w').
Proof.
  induction 1 as [|href text rest w w' Hre _ IH|href text m rest w w1 w' Hre Hpage _ IH];
    simpl; [done|by rewrite Hre|by rewrite Hre, Hpage].
Qed.

Lemma first_profile_found before href text after m games w w1 w2 :
  Spec.rejected (λ aid, games_from_page S aid s) before w w1 →
  Py.re_match PROFILE_RE href = Some m →
  games_from_page S (Py.group 1 m) s w1 = (Some games, w2) →
  first_profile S s (before ++ (href, text) :: after) w = (Some games, w2).
Proof.
  intros Hrej Hre Hpage.
  induction Hrej as [|? ? ? ? ? Hre' _ IH|? ? ? ? ? ? ? Hre' Hpage' _ IH]; simpl.
  - by rewrite Hre, Hpage.
  - rewrite Hre'. by apply IH.
  - rewrite Hre', Hpage'. by apply IH.
Qed.

Lemma first_profile_cases links w :
  (∃ w', Spec.rejected (λ aid, games_from_page S aid s) links w w')
  ∨ (∃ before href text after m games w1 w2,
       links = before ++ (href, text) :: after
       ∧ Spec.rejected (λ aid, games_from_page S aid s) before w w1
       ∧ Py.re_match PROFILE_RE href = Some m
       ∧ games_from_page S (Py.group 1 m) s w1 = (Some games, w2)).
Proof.
  revert w. induction links as [|[href text] rest IH]; intros w.
  { left. eexists. constructor. }
  destruct (Py.re_match PROFILE_RE href) as [m|] eqn:Hre.
  - destruct (games_from_page S (Py.group 1 m) s w) as [[games|] w1] eqn:Hpage.
    + right. exists [], href, text, rest, m, games, w, w1.
      split_and!; [done|constructor|done|done].
    + destruct (IH w1) as [[w' Hrej]|(before & h & t & after & m' & g & wa & wb & -> & Hrej & ? & ?)].
      * left. exists w'. by eapply Spec.rejected_failed.
      * right. exists ((href, text) :: before), h, t, after, m', g, wa, wb.
        split_and!; [done| |done|done]. by eapply Spec.rejected_failed.
  - destruct (IH w) as [[w' Hrej]|(before & h & t & after & m' & g & wa & wb & -> & Hrej & ? & ?)].
    + left. exists w'. by apply Spec.rejected_other.
    + right. exists ((href, text) :: before), h, t, after, m', g, wa, wb.
      split_and!; [done| |done|done]. by apply Spec.rejected_other.
Qed.
End first_profile.

Section first_profile_winter.
Import FilterWinter.
Context (S : site).

Lemma winter_first_profile_rejected links w w' :
  Spec.rejected (winter_games_from_page S) links w w' →
  first_profile S links w = (None, w').
Proof.
  induction 1 as [|href text rest w w' Hre _ IH|href text m rest w w1 w' Hre Hpage _ IH];
    simpl; [done|by rewrite Hre|by rewrite Hre, Hpage].
Qed.

Lemma winter_first_profile_found before href text after m games w w1 w2 :
  Spec.rejected (winter_games_from_page S) before w w1 →
  Py.re_match PROFILE_RE href = Some m →
  winter_games_from_page S (Py.group 1 m) w1 = (Some games, w2) →
  first_profile S (before ++ (href, text) :: after) w = (Some games, w2).
Proof.
  intros Hrej Hre Hpage.
  induction Hrej as [|? ? ? ? ? Hre' _ IH|? ? ? ? ? ? ? Hre' Hpage' _ IH]; simpl.
  - by rewrite Hre, Hpage.
  - rewrite Hre'. by apply IH.
  - rewrite Hre', Hpage'. by apply IH.
Qed.
End first_profile_winter.




Lemma elem_of_sorted (x : string) l : x ∈ Py.sorted l ↔ x ∈ l.
Proof. unfold Py.sorted. by rewrite merge_sort_Permutation. Qed.

Section grouping.
Import FilterByOlympics.

Lemma rows_of_foldl (m : gmap string (list row)) keyed state :
  rows_of (foldl (λ (m : gmap string (list row)) kr,
                    <[kr.1 := default [] (m !! kr.1) ++ [kr.2]]> m) m keyed) state
  = rows_of m state ++ (snd <$> filter (λ kr, kr.1 = state) keyed).
Proof.
  revert m. induction keyed as [|[k r] keyed IH]; intros m; simpl.
  { by rewrite app_nil_r. }
  rewrite IH. unfold rows_of. rewrite filter_cons. simpl.
  destruct (decide (k = state)) as [->|Hne].
  - rewrite lookup_insert_eq. simpl. by rewrite <- app_assoc.
  - by rewrite lookup_insert_ne.
Qed.

Lemma rows_of_group keyed state :
  rows_of (group_by_key keyed) state = snd <$> filter (λ kr, kr.1 = state) keyed.
Proof. unfold group_by_key. by rewrite rows_of_foldl. Qed.

Lemma rows_of_group_without pre key r post state :
  state ≠ key →
  rows_of (group_by_key (pre ++ (key, r) :: post)) state
  = rows_of (group_by_key (pre ++ post)) state.
Proof.
  intros Hne. rewrite !rows_of_group, !filter_app, filter_cons. simpl.
  by rewrite decide_False by done.
Qed.

Lemma tables_ext (m1 m2 : gmap string (list row)) states out_dir out_fields fs :
  (∀ state, state ∈ states → rows_of m1 state = rows_of m2 state) →
  omap (count_line m1) states = omap (count_line m2) states
  ∧ foldl (write_state out_dir out_fields m1) fs states
    = foldl (write_state out_dir out_fields m2) fs states
  ∧ states ≫= rows_of m1 = states ≫= rows_of m2.
Proof.
  revert fs. induction states as [|state states IH]; intros fs Hext; [done|].
  assert (rows_of m1 state = rows_of m2 state) as Hst by (apply Hext; by left).
  destruct (IH (write_state out_dir out_fields m2 fs state)) as (IH1 & IH2 & IH3).
  { intros ? ?. apply Hext. by right. }
  split_and!.
  - assert (∀ m, omap (count_line m) (state :: states)
                 = option_list (count_line m state) ++ omap (count_line m) states)
      as Hcons by (intros m; simpl; by destruct (count_line m state)).
    rewrite !Hcons, IH1. unfold count_line. by rewrite Hst.
  - change (foldl (write_state out_dir out_fields m1)
              (write_state out_dir out_fields m1 fs state) states
            = foldl (write_state out_dir out_fields m2)
                (write_state out_dir out_fields m2 fs state) states).
    rewrite <- IH2. unfold write_state at 2. rewrite Hst. done.
  - change (rows_of m1 state ++ (states ≫= rows_of m1)
            = rows_of m2 state ++ (states ≫= rows_of m2)).
    by rewrite Hst, IH3.
Qed.
End grouping.

(** C10.  A season row whose state key is not in the states list is
    written nowhere: with or without it, [write_season_output] (and the
    writing code of [filter-winter.py]) leaves the same files, the count
    table, the by-state tables, the all-states table, the born-elsewhere
    table and the no-match table included. *)
Theorem unrecognised_state_is_written_nowhere (states_list : list string)
    (out_dir : string) (pre post elsewhere_rows : list (string * row))
    (key : string) (r : row) (no_match_all : list row)
    (out_fields elsewhere_fields : list string) (fs : files) :
  key ∉ states_list →
  FilterByOlympics.write_season_output states_list out_dir
      (pre ++ (key, r) :: post) elsewhere_rows no_match_all out_fields
      elsewhere_fields fs
    = FilterByOlympics.write_season_output states_list out_dir
        (pre ++ post) elsewhere_rows no_match_all out_fields elsewhere_fields fs
  ∧ FilterWinter.write_winter_output states_list
      (pre ++ (key, r) :: post) elsewhere_rows no_match_all out_fields
      elsewhere_fields fs
    = FilterWinter.write_winter_output states_list
        (pre ++ post) elsewhere_rows no_match_all out_fields elsewhere_fields fs.
Proof.
  intros Hkey.
  assert (∀ state, state ∈ Py.sorted states_list →
            FilterByOlympics.rows_of
              (FilterByOlympics.group_by_key (pre ++ (key, r) :: post)) state
            = FilterByOlympics.rows_of
                (FilterByOlympics.group_by_key (pre ++ post)) state) as Hext.
  { intros state Hin. apply (proj1 (elem_of_sorted _ _)) in Hin.
    apply rows_of_group_without. intros ->. contradiction. }
  split.
  - unfold FilterByOlympics.write_season_output.
    destruct (tables_ext _ _ _ out_dir out_fields
                (<[path_join out_dir "count.csv" :=
                     {| fieldnames := FilterByOlympics.COUNT_FIELDS;
                        rows := omap (FilterByOlympics.count_line
                                  (FilterByOlympics.group_by_key (pre ++ post)))
                                  (Py.sorted states_list) |}]> fs) Hext)
      as (H1 & H2 & H3).
    by rewrite H1, H2, H3.
  - unfold FilterWinter.write_winter_output.
    destruct (tables_ext _ _ _ FilterWinter.WINTER_DIR out_fields
                (<[path_join FilterWinter.WINTER_DIR "count.csv" :=
                     {| fieldnames := FilterByOlympics.COUNT_FIELDS;
                        rows := omap (FilterByOlympics.count_line
                                  (FilterByOlympics.group_by_key (pre ++ post)))
                                  (Py.sorted states_list) |}]> fs) Hext)
      as (H1 & H2 & H3).
    by rewrite H1, H2, H3.
Qed.

Lemma elem_of_sorted_union (x : string) a b : x ∈ Py.sorted_union a b ↔ x ∈ a ∨ x ∈ b.
Proof.
  unfold Py.sorted_union. rewrite elem_of_sorted, elem_of_remove_dups. apply elem_of_app.
Qed.

Section cache.
Import FilterByOlympics Spec.

Lemma cache_get_add aid s games c aid' s' :
  cache_get (_add aid s games c) aid' s'
  = if decide (aid = aid' ∧ s = s') then merge_games (cache_get c aid s) games
    else cache_get c aid' s'.
Proof.
  unfold cache_get, _add, merge_games.
  destruct (decide (aid = aid')) as [<-|Hne].
  - rewrite lookup_insert_eq. simpl.
    destruct (c !! aid) as [e|]; simpl; destruct s, s'; simpl;
      case_decide as H; try done; by destruct H.
  - rewrite lookup_insert_ne by done. rewrite decide_False; [done|]. by intros [? _].
Qed.

Lemma lookup_add_None aid s games c aid' :
  _add aid s games c !! aid' = None ↔ aid ≠ aid' ∧ c !! aid' = None.
Proof.
  unfold _add. destruct (decide (aid = aid')) as [<-|Hne].
  - rewrite lookup_insert_eq. split; [done|by intros [? _]].
  - rewrite lookup_insert_ne by done. split; [by intros ?|by intros [_ ?]].
Qed.

Lemma cache_get_row s c r aid s' :
  cache_get (cache_row s c r) aid s'
  = if decide (athlete_id r = aid ∧ aid ≠ "" ∧ s = s')
    then merge_games (cache_get c aid s') (tokens_of r)
    else cache_get c aid s'.
Proof.
  unfold cache_row. case_bool_decide as Hempty.
  - rewrite decide_False; [done|]. intros (? & ? & _). congruence.
  - rewrite cache_get_add. unfold tokens_of.
    destruct (decide (athlete_id r = aid ∧ s = s')) as [[<- <-]|Hne].
    + by rewrite decide_True.
    + rewrite decide_False; [done|]. intros (? & _ & ?). by apply Hne.
Qed.

Lemma cache_get_fold s c rs aid s' :
  cache_get (foldl (cache_row s) c rs) aid s'
  = if decide (aid ≠ "" ∧ s = s')
    then foldl merge_games (cache_get c aid s')
           (tokens_of <$> filter (λ r, athlete_id r = aid) rs)
    else cache_get c aid s'.
Proof.
  revert c. induction rs as [|r rs IH]; intros c.
  { simpl. by case_decide. }
  change (foldl (cache_row s) c (r :: rs))
    with (foldl (cache_row s) (cache_row s c r) rs).
  rewrite IH, cache_get_row, filter_cons.
  destruct (decide (aid ≠ "" ∧ s = s')) as [[Hne <-]|Hno].
  - destruct (decide (athlete_id r = aid)) as [Haid|Haid].
    + by rewrite decide_True.
    + rewrite decide_False; [done|]. by intros [? _].
  - rewrite decide_False; [done|]. intros (_ & ? & ?). by apply Hno.
Qed.

Lemma lookup_fold_None s c rs aid :
  foldl (cache_row s) c rs !! aid = None
  ↔ c !! aid = None ∧ (aid = "" ∨ ∀ r, r ∈ rs → athlete_id r ≠ aid).
Proof.
  revert c. induction rs as [|r rs IH]; intros c; simpl.
  { split; [|by intros [? _]]. intros ?. split; [done|]. right.
    intros ? ?%elem_of_nil. done. }
  rewrite IH. unfold cache_row. case_bool_decide as Hempty.
  - split; intros [Hc Hrs]; (split; [done|]); destruct Hrs as [->|Hrs]; try by left.
    + destruct (decide (aid = "")) as [->|]; [by left|]. right.
      intros r' [->|?]%elem_of_cons; [congruence|by apply Hrs].
    + right. intros r' ?. apply Hrs. by right.
  - rewrite lookup_add_None. split.
    + intros [[Hne Hc] Hrs]. split; [done|]. destruct Hrs as [->|Hrs]; [by left|].
      right. intros r' [->|?]%elem_of_cons; [done|by apply Hrs].
    + intros [Hc Hrs]. destruct Hrs as [->|Hrs].
      * split_and!; [done|done|by left].
      * split_and!; [apply Hrs; by left|done|]. right. intros r' ?. apply Hrs. by right.
Qed.

Lemma build_output_cache_unfold fs :
  build_output_cache fs
  = foldl (cache_row Summer)
      (foldl (cache_row Winter) ∅ (matched_rows fs Winter))
      (matched_rows fs Summer).
Proof.
  assert (∀ s c, foldl (cache_file fs s) c MATCHED
                 = foldl (cache_row s) c (matched_rows fs s)) as Hs.
  { intros s c. unfold matched_rows, MATCHED. simpl. rewrite app_nil_r, foldl_app.
    unfold cache_file.
    by destruct (fs !! path_join (season_dir s) "all-states.csv"),
         (fs !! path_join (season_dir s) "us-born-elsewhere.csv"). }
  rewrite <- (Hs Summer), <- (Hs Winter). reflexivity.
Qed.

Lemma cache_get_build fs aid s :
  cache_get (build_output_cache fs) aid s
  = if decide (aid = "") then None
    else foldl merge_games None
           (tokens_of <$> filter (λ r, athlete_id r = aid) (matched_rows fs s)).
Proof.
  rewrite build_output_cache_unfold, !cache_get_fold.
  unfold cache_get at 1 2. rewrite lookup_empty. simpl.
  destruct s; repeat case_decide; try done;
    repeat match goal with
           | H : _ ∧ _ |- _ => destruct H
           | H : ¬ (_ ∧ _) |- _ => exfalso; apply H; by split
           end; done.
Qed.

Lemma lookup_build_None fs aid :
  build_output_cache fs !! aid = None
  ↔ aid = "" ∨ ∀ s r, r ∈ matched_rows fs s → athlete_id r ≠ aid.
Proof.
  rewrite build_output_cache_unfold, !lookup_fold_None, lookup_empty. split.
  - intros [[_ [?|Hw]] [?|Hs]]; try by left. right. intros [] ? ?; eauto.
  - intros [->|H]; [split_and!; auto|]. split_and!; [done|right; eauto|right; eauto].
Qed.

Lemma merge_fold_None o ls :
  foldl merge_games o ls = None ↔ o = None ∧ ls = [].
Proof.
  revert o. induction ls as [|t ls IH]; intros o; simpl; [by intuition|].
  rewrite IH. unfold merge_games. by intuition.
Qed.

Lemma merge_fold_elem o ls l g :
  foldl merge_games o ls = Some l →
  g ∈ l ↔ (∃ l0, o = Some l0 ∧ g ∈ l0) ∨ (∃ t, t ∈ ls ∧ g ∈ t).
Proof.
  revert o. induction ls as [|t ls IH]; intros o Hfold; simpl in Hfold.
  { subst o. split; [intros ?; left; eauto|].
    intros [(l0 & Heq & ?)|(t & Hnil & _)];
      [by simplify_eq|by apply elem_of_nil in Hnil]. }
  rewrite (IH _ Hfold). unfold merge_games. split.
  - intros [(l0 & [= <-] & Hg)|(t' & Ht' & Hg)].
    + destruct o as [e|].
      * apply elem_of_sorted_union in Hg as [?|?]; [left; eauto|].
        right. exists t. split; [by left|done].
      * apply (proj1 (elem_of_sorted _ _)) in Hg. right. exists t.
        split; [by left|done].
    + right. exists t'. split; [by right|done].
  - intros [(l0 & -> & Hg)|(t' & [->|Ht']%elem_of_cons & Hg)].
    + left. eexists. split; [done|]. apply elem_of_sorted_union. by left.
    + left. eexists. split; [done|]. destruct o.
      * apply elem_of_sorted_union. by right.
      * by apply elem_of_sorted.
    + right. eauto.
Qed.
End cache.


(** C6, counterexample.  A matched table holding a row with an empty
    [Games] cell makes the cache report a resolved, empty list. *)
Lemma cache_reports_resolved_empty :
  ¬ (FilterByOlympics.cache_get
       (FilterByOlympics.build_output_cache Sample.blank_games_prior) "7" Winter = None
     ∨ ∃ games, games ≠ []
         ∧ FilterByOlympics.cache_get
             (FilterByOlympics.build_output_cache Sample.blank_games_prior) "7" Winter
           = Some games).
Proof.
  assert (FilterByOlympics.cache_get
            (FilterByOlympics.build_output_cache Sample.blank_games_prior) "7" Winter
          = Some []) as -> by (by vm_compute).
  intros [?|(games & Hne & [= <-])]; done.
Qed.

(** C6, as amended.  For an identifier and a season the cache reports
    unseen exactly when the identifier is empty or no row of the season's
    matched tables carries it; otherwise it reports a list whose members
    are the editions of those rows, which is empty exactly when every such
    row has an empty [Games] cell.  Without any matched table the cache is
    empty. *)
Theorem cache_reports_unseen_or_union (fs : files) (aid : string) (s : season) :
  let mine := filter (λ r, athlete_id r = aid) (Spec.matched_rows fs s) in
  let state := FilterByOlympics.cache_get (FilterByOlympics.build_output_cache fs) aid s in
  (state = None ↔ aid = "" ∨ mine = [])
  ∧ (∀ games, state = Some games →
       (∀ g, g ∈ games ↔ ∃ r, r ∈ mine ∧ g ∈ Spec.tokens_of r)
       ∧ (games = [] ↔ ∀ r, r ∈ mine → Spec.tokens_of r = []))
  ∧ ((∀ s' fname, fname ∈ FilterByOlympics.MATCHED →
        fs !! path_join (FilterByOlympics.season_dir s') fname = None) →
     FilterByOlympics.build_output_cache fs = ∅).
Proof.
  intros mine state. subst state. rewrite cache_get_build. fold mine.
  split_and!.
  - case_decide as Hempty; [by intuition|]. rewrite merge_fold_None.
    split.
    + intros [_ ?%fmap_nil_inv]. by right.
    + intros [?| ->]; [done|by split].
  - intros games Hst. case_decide as Hempty; [done|].
    assert (∀ g, g ∈ games ↔ ∃ r, r ∈ mine ∧ g ∈ Spec.tokens_of r) as Helem.
    { intros g. rewrite (merge_fold_elem _ _ _ g Hst). split.
      - intros [(l0 & [=] & _)|(t & (r & -> & Hr)%list_elem_of_fmap & Hg)]. eauto.
      - intros (r & Hr & Hg). right. exists (Spec.tokens_of r).
        split; [by apply list_elem_of_fmap_2|done]. }
    split; [done|]. split.
    + intros -> r Hr. destruct (Spec.tokens_of r) as [|g t] eqn:Ht; [done|].
      assert (g ∈ ([] : list string)) as []%elem_of_nil.
      apply Helem. exists r. split; [done|]. rewrite Ht. by left.
    + intros Hall. destruct games as [|g games]; [done|].
      destruct (proj1 (Helem g)) as (r & Hr & Hg); [by left|].
      rewrite (Hall r Hr) in Hg. by apply elem_of_nil in Hg.
  - intros Hmissing. apply map_eq. intros aid'. rewrite lookup_empty.
    apply lookup_build_None. right. intros s' r Hr.
    unfold Spec.matched_rows in Hr. apply list_elem_of_bind in Hr as (fname & Hr & Hf).
    rewrite (Hmissing s' fname Hf) in Hr. by apply elem_of_nil in Hr.
Qed.

Lemma matched_rows_no_match fs s t s' :
  Spec.matched_rows
    (<[path_join (FilterByOlympics.season_dir s) "no-match.csv" := t]> fs) s'
  = Spec.matched_rows fs s'.
Proof.
  unfold Spec.matched_rows, FilterByOlympics.MATCHED. simpl.
  rewrite !lookup_insert_ne; [done| |]; destruct s, s'; by vm_compute.
Qed.


Section lookups.
Import Spec.
Context (keep : string → bool).

Lemma scan_lookup_elem lookup r aid g :
  g ∈ default [] (scan_lookup keep lookup r !! aid)
  ↔ g ∈ default [] (lookup !! aid) ∨ sources keep [r] aid g.
Proof.
  unfold scan_lookup, sources. case_bool_decide as Hempty.
  { split; [by left|]. intros [?|(r' & ->%list_elem_of_singleton & <- & ? & _)]; done. }
  destruct (keep (Py.strip (get "Games" r))) eqn:Hkeep; simpl.
  - case_bool_decide as Hin; simpl.
    + split; [by left|]. intros [?|(r' & ->%list_elem_of_singleton & <- & _ & <- & _)]; done.
    + destruct (decide (athlete_id r = aid)) as [<-|Hne].
      * rewrite lookup_insert_eq. simpl. rewrite elem_of_app, list_elem_of_singleton.
        split; intros [?|H]; try by left.
        -- right. exists r. subst g. split_and!; try done. by left.
        -- right. by destruct H as (r' & ->%list_elem_of_singleton & _ & _ & <- & _).
      * rewrite lookup_insert_ne by done. split; [by left|].
        intros [?|(r' & ->%list_elem_of_singleton & ? & _)]; done.
  - split; [by left|].
    intros [?|(r' & ->%list_elem_of_singleton & _ & _ & <- & ?)]; [done|congruence].
Qed.

Lemma scan_lookup_well_kept lookup r :
  well_kept lookup → well_kept (scan_lookup keep lookup r).
Proof.
  intros Hwk aid l. unfold scan_lookup. case_bool_decide; [apply Hwk|].
  destruct (keep _); simpl; [|apply Hwk].
  case_bool_decide as Hin; simpl; [apply Hwk|].
  destruct (decide (athlete_id r = aid)) as [<-|Hne].
  - rewrite lookup_insert_eq. intros [= <-]. split; [|by destruct (default _ _)].
    apply NoDup_app. split_and!.
    + destruct (lookup !! athlete_id r) as [l|] eqn:Hl; simpl; [by apply (Hwk _ _ Hl)|constructor].
    + intros x Hx ->%list_elem_of_singleton. done.
    + apply NoDup_singleton.
  - rewrite lookup_insert_ne by done. apply Hwk.
Qed.

Lemma fold_lookup_elem lookup rs aid g :
  g ∈ default [] (foldl (scan_lookup keep) lookup rs !! aid)
  ↔ g ∈ default [] (lookup !! aid) ∨ sources keep rs aid g.
Proof.
  revert lookup. induction rs as [|r rs IH]; intros lookup; simpl.
  { split; [by left|]. by intros [?|(r & ?%elem_of_nil & _)]. }
  rewrite IH, scan_lookup_elem. unfold sources. split.
  - intros [[?|(r' & ->%list_elem_of_singleton & ?)]|(r' & ? & ?)]; [by left|right..].
    + exists r. split; [by left|done].
    + exists r'. split; [by right|done].
  - intros [?|(r' & [->|?]%elem_of_cons & ?)]; [by left; left| |].
    + left. right. exists r. split; [by apply list_elem_of_singleton|done].
    + right. eauto.
Qed.

Lemma fold_lookup_well_kept lookup rs :
  well_kept lookup → well_kept (foldl (scan_lookup keep) lookup rs).
Proof.
  revert lookup. induction rs as [|r rs IH]; intros lookup Hwk; simpl; [done|].
  by apply IH, scan_lookup_well_kept.
Qed.
End lookups.

Lemma sorted_lookup_elem (lookup : gmap string (list string)) aid g :
  g ∈ default [] ((Py.sorted <$> lookup) !! aid) ↔ g ∈ default [] (lookup !! aid).
Proof.
  rewrite lookup_fmap. destruct (lookup !! aid); simpl; [apply elem_of_sorted|done].
Qed.

Lemma sorted_well_kept lookup :
  Spec.well_kept lookup → Spec.well_kept (Py.sorted <$> lookup).
Proof.
  intros Hwk aid l. rewrite lookup_fmap.
  destruct (lookup !! aid) as [l0|] eqn:Hl; simpl; [|done]. intros [= <-].
  destruct (Hwk _ _ Hl) as [Hnd Hne]. unfold Py.sorted. split.
  - by rewrite merge_sort_Permutation.
  - intros Hnil. apply Hne. apply Permutation_nil_r. rewrite <- Hnil.
    by rewrite merge_sort_Permutation.
Qed.

Lemma winter_lookup_fold idx rs :
  FilterByOlympics.winter_lookup (foldl FilterByOlympics.scan_row idx rs)
  = foldl (Spec.scan_lookup Spec.proper_winter) (FilterByOlympics.winter_lookup idx) rs.
Proof.
  revert idx. induction rs as [|r rs IH]; intros idx; simpl; [done|].
  rewrite IH. f_equal. unfold FilterByOlympics.scan_row, Spec.scan_lookup.
  by case_bool_decide.
Qed.

Lemma winter_only_lookup_fold idx rs :
  FilterWinter.winter_lookup (foldl FilterWinter.scan_row idx rs)
  = foldl (Spec.scan_lookup Spec.any_winter) (FilterWinter.winter_lookup idx) rs.
Proof.
  revert idx. induction rs as [|r rs IH]; intros idx; simpl; [done|].
  rewrite IH. f_equal. unfold FilterWinter.scan_row, Spec.scan_lookup.
  by case_bool_decide.
Qed.

Lemma well_kept_empty : Spec.well_kept ∅.
Proof. intros aid l. by rewrite lookup_empty. Qed.

Lemma sources_app keep rs1 rs2 aid g :
  Spec.sources keep (rs1 ++ rs2) aid g
  ↔ Spec.sources keep rs1 aid g ∨ Spec.sources keep rs2 aid g.
Proof.
  unfold Spec.sources. split.
  - intros (r & [?|?]%elem_of_app & ?); [left|right]; eauto.
  - intros [(r & ? & ?)|(r & ? & ?)]; exists r; (split; [apply elem_of_app; auto|done]).
Qed.

Lemma build_index_elem results new_results aid g :
  g ∈ default [] (FilterByOlympics.winter_lookup
                    (FilterByOlympics.build_index results new_results) !! aid)
  ↔ Spec.sources Spec.proper_winter (results ++ default [] new_results) aid g.
Proof.
  unfold FilterByOlympics.build_index. destruct new_results as [more|]; simpl.
  - rewrite sorted_lookup_elem, winter_lookup_fold, fold_lookup_elem. simpl.
    rewrite sorted_lookup_elem, winter_lookup_fold, fold_lookup_elem. simpl.
    rewrite lookup_empty, sources_app. simpl. rewrite elem_of_nil. tauto.
  - rewrite sorted_lookup_elem, winter_lookup_fold, fold_lookup_elem. simpl.
    rewrite lookup_empty, app_nil_r. simpl. rewrite elem_of_nil. tauto.
Qed.

Lemma build_index_well_kept results new_results :
  Spec.well_kept (FilterByOlympics.winter_lookup
                    (FilterByOlympics.build_index results new_results)).
Proof.
  assert (Spec.well_kept
            (FilterByOlympics.winter_lookup
               (FilterByOlympics.sort_lookups
                  (foldl FilterByOlympics.scan_row FilterByOlympics.empty_index results))))
    as H1.
  { simpl. apply sorted_well_kept. rewrite winter_lookup_fold.
    apply fold_lookup_well_kept, well_kept_empty. }
  unfold FilterByOlympics.build_index. destruct new_results as [more|]; [|done].
  simpl. apply sorted_well_kept. rewrite winter_lookup_fold.
  by apply fold_lookup_well_kept.
Qed.

Lemma winter_only_index_elem results aid g :
  g ∈ default [] (FilterWinter.winter_lookup (FilterWinter.build_index results) !! aid)
  ↔ Spec.sources Spec.any_winter results aid g.
Proof.
  unfold FilterWinter.build_index. simpl.
  rewrite sorted_lookup_elem, winter_only_lookup_fold, fold_lookup_elem. simpl.
  rewrite lookup_empty. simpl. rewrite elem_of_nil. tauto.
Qed.

Lemma winter_only_index_well_kept results :
  Spec.well_kept (FilterWinter.winter_lookup (FilterWinter.build_index results)).
Proof.
  unfold FilterWinter.build_index. simpl. apply sorted_well_kept.
  rewrite winter_only_lookup_fold. apply fold_lookup_well_kept, well_kept_empty.
Qed.

Lemma only_element (l : list string) x :
  NoDup l → l ≠ [] → (∀ g, g ∈ l → g = x) → l = [x].
Proof.
  intros Hnd Hne Hall. destruct l as [|a l]; [done|].
  assert (a = x) as -> by (apply Hall; by left).
  destruct l as [|b l]; [done|].
  assert (b = x) as -> by (apply Hall; right; by left).
  apply NoDup_cons in Hnd as [Hnotin _]. exfalso. apply Hnotin. by left.
Qed.



Section stateless.
Import FilterByOlympics Spec.
Context (S : site) (Hs : stateless S).

Lemma attempts_answer n url d w d' w' :
  (attempts S n url d w).1 = (attempts S n url d' w').1.
Proof using Hs.
  revert d w d' w'. induction n as [|n IH]; intros d w d' w'; simpl; [done|].
  rewrite (Hs (requests w)), (Hs (requests w')).
  destruct (server S [] url) as [body|code|]; simpl; [done| |done].
  destruct (code =? 429); [apply IH|done].
Qed.

Lemma fetch_answer url w w' : (_fetch S url w).1 = (_fetch S url w').1.
Proof using Hs. apply attempts_answer. Qed.

Lemma games_from_page_answer aid s w w' :
  (games_from_page S aid s w).1 = (games_from_page S aid s w').1.
Proof using Hs.
  unfold games_from_page.
  pose proof (fetch_answer (BASE_URL +:+ "/athletes/" +:+ aid) w w') as H.
  destruct (_fetch S _ w) as [[html|] w1], (_fetch S _ w') as [[html'|] w1'];
    simpl in *; by simplify_eq.
Qed.

Lemma first_profile_answer s links w w' :
  (first_profile S s links w).1 = (first_profile S s links w').1.
Proof using Hs.
  revert w w'. induction links as [|[href text] links IH]; intros w w'; simpl; [done|].
  destruct (Py.re_match PROFILE_RE href) as [m|]; [|apply IH].
  pose proof (games_from_page_answer (Py.group 1 m) s w w') as H.
  destruct (games_from_page S _ s w) as [[games|] w1],
           (games_from_page S _ s w') as [[games'|] w1']; simpl in *; simplify_eq;
    [done|apply IH].
Qed.

Lemma search_answer name s w w' :
  (search_and_find_season S name s w).1 = (search_and_find_season S name s w').1.
Proof using Hs.
  unfold search_and_find_season.
  destruct (Py.split_ws _) as [|p ps]; [done|].
  pose proof (fetch_answer (search_url S (p :: ps)) w w') as H.
  destruct (_fetch S _ w) as [[html|] w1], (_fetch S _ w') as [[html'|] w1'];
    simpl in *; simplify_eq; [apply first_profile_answer|done].
Qed.

Lemma scrape_answer s r w : (scrape S s r w).1 = scraped S s r.
Proof using Hs.
  unfold scraped, scrape. case_bool_decide; [apply search_answer|apply games_from_page_answer].
Qed.
End stateless.

Lemma omap_pair_perm {A B} (f g h : A → option B) (l : list A) :
  (∀ x, x ∈ l → (f x = h x ∧ g x = None) ∨ (f x = None ∧ g x = h x)) →
  omap f l ++ omap g l ≡ₚ omap h l.
Proof.
  induction l as [|x l IH]; intros Hx; [done|].
  assert (omap f l ++ omap g l ≡ₚ omap h l) as IH'.
  { apply IH. intros y Hy. apply Hx. by right. }
  assert (∀ k : A → option B, omap k (x :: l) = option_list (k x) ++ omap k l) as Hcons.
  { intros k. simpl. by destruct (k x). }
  rewrite !Hcons.
  destruct (Hx x) as [[-> ->]|[-> ->]]; [by left| |]; simpl.
  - rewrite <- IH'. by rewrite <- app_assoc.
  - rewrite <- IH'. destruct (h x); simpl; [|done]. by rewrite Permutation_middle.
Qed.

Section rows.
Import FilterByOlympics Spec.
Context (S : site) (seen : gset string) (c : cache) (out_fields : list string)
  (s : season) (lookup : gmap string (list string)) (key : option (row → string)).

Abbreviation triage := (triage seen c out_fields s lookup key).



Lemma triage_one a b r :
  triage (a, b) r
  = match first_pass seen c s lookup r with
    | Some (Some cell) => (a ++ [out_entry key out_fields r cell], b)
    | Some None => (a, b)
    | None => (a, b ++ [r])
    end.
Proof.
  unfold FilterByOlympics.triage, first_pass. case_bool_decide.
  - by destruct (default [] (lookup !! athlete_id r)).
  - by destruct (cache_get c (athlete_id r) s) as [[|g gs]|].
Qed.

Lemma triage_fold l :
  foldl triage ([], []) l
  = (omap (known_entry seen c out_fields s lookup key) l,
     filter (λ r, first_pass seen c s lookup r = None) l).
Proof.
  induction l as [|r l IH] using rev_ind; [done|].
  rewrite foldl_app, IH. cbn [foldl]. rewrite triage_one, omap_app, filter_app.
  rewrite filter_cons, filter_nil. cbn [omap list_omap].
  remember (known_entry seen c out_fields s lookup key r) as entry eqn:Hentry. unfold known_entry in Hentry.
  destruct (first_pass seen c s lookup r) as [[cell|]|]; subst entry; simpl;
    rewrite ?decide_True, ?decide_False by done; by rewrite ?app_nil_r.
Qed.
End rows.

Section season_rows.
Import FilterByOlympics Spec.
Context (S : site) (Hs : stateless S).
Context (seen : gset string) (c : cache) (out_fields : list string)
  (s : season) (lookup : gmap string (list string)) (key : option (row → string)).

Lemma scrape_all_rows ns w :
  (scrape_all S out_fields s key ns [] [] w).1.1
  = omap (λ r, out_entry key out_fields r <$> second_pass S s r) ns.
Proof using Hs.
  revert w. induction ns as [|r ns IH]; intros w; [done|].
  cbn [scrape_all omap list_omap]. unfold second_pass at 1.
  rewrite <- (scrape_answer S Hs s r w).
  destruct (scrape S s r w) as [[[|g gs]|] w']; simpl.
  - apply IH.
  - rewrite ByOlympics.scrape_all_acc. simpl. by rewrite IH.
  - rewrite ByOlympics.scrape_all_acc. simpl. by rewrite IH.
Qed.

Lemma classify_rows l w :
  (classify_athletes S seen c out_fields s lookup key l w).1.1
  ≡ₚ omap (season_entry S seen c out_fields s lookup key) l.
Proof using Hs.
  rewrite ByOlympics.classify_unfold. cbn [fst snd].
  rewrite triage_fold. cbn [fst snd]. rewrite scrape_all_rows.
  etrans; [|apply (omap_pair_perm
               (known_entry seen c out_fields s lookup key)
               (λ r, if decide (first_pass seen c s lookup r = None)
                     then out_entry key out_fields r <$> second_pass S s r
                     else None))].
  - apply Permutation_app_head.
    assert (∀ {A B} (x y : list (A * B)), x = y → x ≡ₚ y) as Heq by by intros ? ? ? ? ->.
    apply Heq. clear Heq.
    induction l as [|r l IH]; [done|]. rewrite filter_cons. cbn [omap list_omap].
    case_decide; cbn [omap list_omap]; by rewrite IH.
  - intros r _. unfold known_entry, season_entry, games_cell.
    destruct (first_pass seen c s lookup r) as [[cell|]|]; simpl; auto.
Qed.
End season_rows.
(** ** Text *)

Lemma chars_str l : Py.chars (Py.str l) = l.
Proof. apply list_ascii_of_string_of_list_ascii. Qed.

Lemma str_chars s : Py.str (Py.chars s) = s.
Proof. apply string_of_list_ascii_of_string. Qed.

Lemma chars_app a b : Py.chars (a +:+ b) = Py.chars a ++ Py.chars b.
Proof. induction a as [|c a IH]; [done|]. unfold Py.chars in *. simpl. by rewrite IH. Qed.

Lemma lstrip_length l : (length (Py.lstrip_chars l) ≤ length l)%nat.
Proof. induction l as [|c l IH]; simpl; [done|]. destruct (Py.isspace c); simpl; lia. Qed.

Lemma lstrip_fixed l :
  l ≠ [] → Py.lstrip_chars l = l → ∃ c l', l = c :: l' ∧ Py.isspace c = false.
Proof.
  destruct l as [|c l]; [done|]. intros _ H. exists c, l. split; [done|].
  simpl in H. destruct (Py.isspace c); [|done].
  pose proof (lstrip_length l) as Hlen. rewrite H in Hlen. simpl in Hlen. lia.
Qed.

Lemma lstrip_app l x :
  l ≠ [] → Py.lstrip_chars l = l → Py.lstrip_chars (l ++ x) = l ++ x.
Proof.
  intros Hne H. destruct (lstrip_fixed l Hne H) as (c & l' & -> & Hc). simpl. by rewrite Hc.
Qed.

Lemma strip_tidy_chars l x y :
  l ≠ [] → Py.lstrip_chars l = l →
  y ≠ [] → Py.lstrip_chars (rev y) = rev y →
  Py.rstrip_chars (Py.lstrip_chars (l ++ x ++ y)) = l ++ x ++ y.
Proof.
  intros Hl Hls Hy Hys. rewrite lstrip_app by done. unfold Py.rstrip_chars.
  assert (rev (l ++ x ++ y) = rev y ++ rev (l ++ x)) as ->.
  { by rewrite (app_assoc l x y), rev_app_distr. }
  rewrite lstrip_app; [| |done].
  - by rewrite rev_app_distr, !rev_involutive, <- app_assoc.
  - intros H. apply (f_equal (@rev ascii)) in H. by rewrite rev_involutive in H.
Qed.

Lemma split_chars_run x cur rest :
  ";"%char ∉ x →
  Py.split_chars ";" cur (x ++ rest) = Py.split_chars ";" (rev x ++ cur) rest.
Proof.
  revert cur. induction x as [|c x IH]; intros cur Hx; [done|].
  apply not_elem_of_cons in Hx as [Hc Hx]. simpl.
  rewrite bool_decide_eq_false_2 by done. rewrite IH by done. by rewrite <- app_assoc.
Qed.

Section tokens.
Import Spec.

Lemma join_chars t ts :
  Py.chars (Py.join "; " (t :: ts)) = Py.chars t ++ tail_chars ts.
Proof.
  revert t. induction ts as [|t' ts IH]; intros t.
  { simpl. by rewrite app_nil_r. }
  change (Py.join "; " (t :: t' :: ts)) with (t +:+ "; " +:+ Py.join "; " (t' :: ts)).
  rewrite !chars_app, IH. done.
Qed.

Lemma split_tail cur ts :
  Forall tidy ts →
  Py.split_chars ";" cur (tail_chars ts)
  = match ts with
    | [] => [rev cur]
    | _ => rev cur :: ((λ t, " "%char :: Py.chars t) <$> ts)
    end.
Proof.
  intros Hts. revert cur. induction Hts as [|t ts Ht Hts IH]; intros cur; [done|].
  destruct Ht as (_ & _ & _ & Hsemi).
  change (tail_chars (t :: ts))
    with (";"%char :: (" "%char :: Py.chars t) ++ tail_chars ts).
  cbn [Py.split_chars]. rewrite bool_decide_eq_true_2 by done. f_equal.
  rewrite split_chars_run.
  2:{ intros [?|?]%elem_of_cons; done. }
  rewrite IH. rewrite app_nil_r, rev_involutive. by destruct ts.
Qed.

Lemma strip_blank_tidy t : tidy t → Py.strip (Py.str (" "%char :: Py.chars t)) = t.
Proof.
  intros (Hne & Hl & Hr & _). unfold Py.strip. rewrite chars_str.
  change (Py.lstrip_chars (" "%char :: Py.chars t)) with (Py.lstrip_chars (Py.chars t)).
  rewrite Hl. unfold Py.rstrip_chars. by rewrite Hr, rev_involutive, str_chars.
Qed.

Lemma strip_tidy t : tidy t → Py.strip t = t.
Proof.
  intros (Hne & Hl & Hr & _). unfold Py.strip.
  rewrite Hl. unfold Py.rstrip_chars. by rewrite Hr, rev_involutive, str_chars.
Qed.

Lemma tidy_nonempty t : tidy t → t ≠ "".
Proof. intros (Hne & _) ->. done. Qed.
End tokens.

Lemma strip_join ts : Forall Spec.tidy ts → Py.strip (Py.join "; " ts) = Py.join "; " ts.
Proof.
  intros Hts. destruct ts as [|t ts]; [done|].
  apply Forall_cons in Hts as [Ht Hts].
  destruct ts as [|t' ts] using rev_ind; [by apply strip_tidy|]. clear IHts.
  apply Forall_app in Hts as [_ [Hlast _]%Forall_cons].
  unfold Py.strip. rewrite join_chars. unfold Spec.tail_chars. rewrite bind_app.
  cbn [mbind list_bind]. rewrite app_nil_r.
  change ((";"%char :: " "%char :: Py.chars t'))
    with ([";"%char; " "%char] ++ Py.chars t').
  destruct Ht as (Hne & Hl & _ & _), Hlast as (Hne' & _ & Hr' & _).
  rewrite (app_assoc (ts ≫= _)). rewrite strip_tidy_chars by done.
  rewrite <- (app_assoc (ts ≫= _)).
  change ([";"%char; " "%char] ++ Py.chars t') with (";"%char :: " "%char :: Py.chars t').
  assert ((ts ≫= λ t0, ";"%char :: " "%char :: Py.chars t0)
            ++ ";"%char :: " "%char :: Py.chars t' = Spec.tail_chars (ts ++ [t'])) as ->.
  { unfold Spec.tail_chars. rewrite bind_app. cbn [mbind list_bind]. by rewrite app_nil_r. }
  by rewrite <- join_chars, str_chars.
Qed.

Lemma games_of_join ts :
  Forall Spec.tidy ts → FilterByOlympics.games_of (Py.strip (Py.join "; " ts)) = ts.
Proof.
  intros Hts. rewrite strip_join by done. destruct ts as [|t ts]; [done|].
  pose proof Hts as [Ht Hts']%Forall_cons.
  unfold FilterByOlympics.games_of, Py.split. rewrite join_chars.
  rewrite split_chars_run by apply Ht. rewrite split_tail by done.
  rewrite app_nil_r, rev_involutive.
  assert (Py.strip <$> (Py.str <$> (Py.chars t :: ((λ t0, " "%char :: Py.chars t0) <$> ts)))
          = t :: ts) as Hstrip.
  { cbn [fmap list_fmap]. rewrite str_chars, strip_tidy by done. f_equal.
    clear Ht Hts. induction Hts' as [|t' ts Ht' _ IH]; [done|].
    cbn [fmap list_fmap]. rewrite strip_blank_tidy by done. f_equal. apply IH. }
  assert (∀ l : list string, Forall Spec.tidy l → filter (λ g, g ≠ "") l = l) as Hfilter.
  { intros l Hl. induction Hl as [|g l Hg _ IH]; [done|].
    rewrite filter_cons, decide_True by by apply tidy_nonempty. by rewrite IH. }
  destruct ts as [|t' ts].
  - cbn [fmap list_fmap]. rewrite str_chars, strip_tidy by done. by apply Hfilter.
  - rewrite Hstrip. by apply Hfilter.
Qed.

(** ** Sorting *)

Lemma sorted_Sorted l : Sorted String.le (Py.sorted l).
Proof. apply Sorted_merge_sort. apply _. Qed.

Lemma sorted_perm l : Py.sorted l ≡ₚ l.
Proof. apply merge_sort_Permutation. Qed.

Lemma sorted_fixed l : Sorted String.le l → Py.sorted l = l.
Proof.
  intros Hl. apply (Sorted_unique String.le); [apply sorted_Sorted|done|apply sorted_perm].
Qed.

Lemma sorted_idemp l : Py.sorted (Py.sorted l) = Py.sorted l.
Proof. apply sorted_fixed, sorted_Sorted. Qed.

Lemma sorted_union_self l :
  Sorted String.le l → NoDup l → Py.sorted_union l l = l.
Proof.
  intros Hl Hnd. unfold Py.sorted_union.
  apply (Sorted_unique String.le); [apply sorted_Sorted|done|].
  rewrite sorted_perm. apply NoDup_Permutation; [apply NoDup_remove_dups|done|].
  intros x. rewrite elem_of_remove_dups, elem_of_app. tauto.
Qed.

Lemma merge_same (t : list string) (n : nat) :
  Sorted String.le t → NoDup t →
  foldl Spec.merge_games None (replicate (S n) t) = Some t.
Proof.
  intros Ht Hnd. cbn [replicate foldl]. unfold Spec.merge_games at 2.
  rewrite sorted_fixed by done.
  induction n as [|n IH]; [done|]. cbn [replicate foldl].
  unfold Spec.merge_games at 2. by rewrite sorted_union_self.
Qed.

(** ** The editions read off a page *)

Lemma lit_chars_spec p pre l pre' l' :
  Py.lit_chars p pre l = Some (pre', l') → l = p ++ l' ∧ pre' = rev p ++ pre.
Proof.
  revert pre l. induction p as [|a p IH]; intros pre l H; simpl in H.
  { by simplify_eq. }
  destruct l as [|c l]; [done|]. case_bool_decide; [|done]. subst c.
  apply IH in H as [-> ->]. split; [done|]. simpl. by rewrite <- app_assoc.
Qed.

Lemma digit_not_space c : Py.isdigit c = true → Py.isspace c = false.
Proof. by destruct c as [[] [] [] [] [] [] [] []]. Qed.

Lemma page_edition name text m :
  Py.re_match (PAGE_RE name) text = Some m →
  ∃ d1 d2 d3 d4,
    Py.isdigit d1 = true ∧ Py.isdigit d2 = true ∧ Py.isdigit d3 = true
    ∧ Py.isdigit d4 = true
    ∧ Py.group 1 m
      = Py.str (d1 :: d2 :: d3 :: d4 :: Py.chars (" " +:+ name +:+ " Olympics")).
Proof.
  unfold Py.re_match, PAGE_RE. cbn [Py.cats Py.run].
  destruct (Py.chars text) as [|d1 [|d2 [|d3 [|d4 l]]]];
    repeat (first [done | case_match]).
  all: try done.
  match goal with H : Py.lit_chars _ _ _ = Some _ |- _ =>
    apply lit_chars_spec in H as [-> ->] end.
  unfold Py.accept. intros [= <-]. exists d1, d2, d3, d4. split_and!; try done.
  unfold Py.group. rewrite lookup_insert_eq. cbn [default from_option id].
  rewrite Nat.sub_0_r, firstn_all. rewrite !rev_app_distr, rev_involutive. done.
Qed.

Lemma page_edition_tidy s text m :
  Py.re_match (PAGE_RE (season_name s)) text = Some m → Spec.tidy (Py.group 1 m).
Proof.
  intros (d1 & d2 & d3 & d4 & H1 & H2 & H3 & H4 & ->)%page_edition.
  unfold Spec.tidy. rewrite chars_str. split_and!.
  - done.
  - simpl. by rewrite (digit_not_space d1).
  - by destruct s.
  - intros Hin. repeat (apply elem_of_cons in Hin as [Hin|Hin]);
      try (by subst; vm_compute in H1, H2, H3, H4).
    destruct s; vm_compute in Hin;
      repeat (apply elem_of_cons in Hin as [Hin|Hin]); try done;
      by apply elem_of_nil in Hin.
Qed.

Section page_games.
Import FilterByOlympics.

Lemma page_game_keeps s games link :
  Forall Spec.tidy games ∧ NoDup games →
  Forall Spec.tidy (page_game s games link) ∧ NoDup (page_game s games link).
Proof.
  intros [Ht Hnd]. unfold page_game. destruct link as [href text].
  destruct (_ && _); [|done].
  destruct (Py.re_match _ text) as [m|] eqn:Hm; [|done].
  destruct (year_at_least _ _); simpl; [|done].
  case_bool_decide as Hin; simpl; [done|]. split.
  - apply Forall_app. split; [done|]. apply Forall_singleton. by eapply page_edition_tidy.
  - apply NoDup_app. split_and!; [done| |apply NoDup_singleton].
    intros x Hx ->%list_elem_of_singleton. done.
Qed.

Lemma page_games_keep s links games :
  Forall Spec.tidy games ∧ NoDup games →
  Forall Spec.tidy (foldl (page_game s) games links)
  ∧ NoDup (foldl (page_game s) games links).
Proof.
  revert games. induction links as [|link links IH]; intros games H; [done|].
  simpl. by apply IH, page_game_keeps.
Qed.

Lemma games_from_page_tidy S aid s w games w' :
  games_from_page S aid s w = (Some games, w') →
  Forall Spec.tidy games ∧ NoDup games.
Proof.
  unfold games_from_page. destruct (_fetch S _ w) as [[html|] w1]; [|done].
  intros [= <- <-].
  destruct (page_games_keep s (page_links S html) []) as [Ht Hnd].
  { split; constructor. }
  split; by rewrite sorted_perm.
Qed.
End page_games.

(** ** Rows written and read back *)

Lemma get_project k fields (r : row) :
  get k (project fields r) = if decide (k ∈ fields) then get k r else "".
Proof.
  unfold project, get.
  assert (∀ m : row,
            default "" (foldl (λ (m : row) k', <[k' := default "" (r !! k')]> m) m fields !! k)
            = if decide (k ∈ fields) then default "" (r !! k) else default "" (m !! k)) as H.
  { induction fields as [|f fields IH]; intros m; simpl.
    { done. }
    rewrite IH. destruct (decide (k ∈ fields)) as [Hin|Hin].
    - rewrite decide_True; [done|by right].
    - destruct (decide (k = f)) as [->|Hne].
      + rewrite lookup_insert_eq, decide_True; [done|by left].
      + rewrite lookup_insert_ne by done. rewrite decide_False; [done|].
        by intros [?|?]%elem_of_cons. }
  rewrite H, lookup_empty. done.
Qed.

Lemma get_build_out_row k (r : row) cell fields :
  get k (build_out_row r cell fields)
  = if decide (k = "Games") then cell else get k (project fields r).
Proof.
  unfold build_out_row, get at 1. case_decide as Hk.
  - subst k. by rewrite lookup_insert_eq.
  - by rewrite lookup_insert_ne.
Qed.

Lemma written_athlete_id fields out_fields (r : row) cell :
  athlete_id (project fields (build_out_row r cell out_fields)) = athlete_id r
  ∨ athlete_id (project fields (build_out_row r cell out_fields)) = "".
Proof.
  unfold athlete_id. rewrite get_project, get_build_out_row, get_project.
  destruct (decide ("athlete_id" = "Games")) as [?|_]; [done|].
  repeat case_decide; auto.
Qed.

Lemma written_tokens fields out_fields (r : row) cell :
  "Games" ∈ fields →
  Spec.tokens_of (project fields (build_out_row r cell out_fields))
  = FilterByOlympics.games_of (Py.strip cell).
Proof.
  intros Hin. unfold Spec.tokens_of.
  by rewrite get_project, get_build_out_row, !decide_True.
Qed.

Lemma replace_first_elem old new l x :
  x ∈ replace_first old new l → x = new ∨ x ∈ l.
Proof.
  induction l as [|y l IH]; simpl; [by right|]. case_bool_decide.
  - intros [->|?]%elem_of_cons; [by left|]. right. by right.
  - intros [->|?]%elem_of_cons; [right; by left|].
    destruct IH as [?|?]; [done|by left|right; by right].
Qed.

Lemma replace_first_new old new l : old ∈ l → new ∈ replace_first old new l.
Proof.
  induction l as [|y l IH]; [by intros ?%elem_of_nil|]. simpl.
  case_bool_decide; [by left|].
  intros [->|?]%elem_of_cons; [done|]. right. by apply IH.
Qed.

Lemma games_in_out_fields fields : "Games" ∈ make_out_fields fields.
Proof.
  unfold make_out_fields. case_bool_decide; [by apply replace_first_new|].
  case_bool_decide; [done|by left].
Qed.

Lemma eq_perm {A} (x y : list A) : x = y → x ≡ₚ y.
Proof. by intros ->. Qed.

Lemma bind_perm_ext {A B} (f g : A → list B) (l : list A) :
  (∀ x, f x ≡ₚ g x) → l ≫= f ≡ₚ l ≫= g.
Proof.
  intros Hfg. induction l as [|x l IH]; [done|].
  cbn [mbind list_bind]. by rewrite (Hfg x), IH.
Qed.

Lemma all_states_rows_perm states_list out_fields keyed keyed' :
  keyed ≡ₚ keyed' →
  Spec.all_states_rows states_list out_fields keyed
  ≡ₚ Spec.all_states_rows states_list out_fields keyed'.
Proof.
  intros Hk. unfold Spec.all_states_rows. apply fmap_Permutation.
  apply bind_perm_ext. intros state. rewrite !rows_of_group. by rewrite Hk.
Qed.

Lemma elsewhere_rows_perm fields keyed keyed' :
  keyed ≡ₚ keyed' →
  Spec.elsewhere_rows fields keyed ≡ₚ Spec.elsewhere_rows fields keyed'.
Proof. intros Hk. unfold Spec.elsewhere_rows. by rewrite Hk. Qed.

Lemma fmap_replicate_const {A B} (f : A → B) (l : list A) (y : B) :
  (∀ x, x ∈ l → f x = y) → f <$> l = replicate (length l) y.
Proof.
  induction l as [|x l IH]; intros H; [done|]. cbn [fmap list_fmap length replicate].
  rewrite (H x) by by left. f_equal. apply IH. intros ? ?. apply H. by right.
Qed.

Section rerun.
Import FilterByOlympics Spec.
Context (S : site) (Hs : stateless S).
Context (seen : gset string) (lookup : gmap string (list string)) (s : season)
  (out_fields elsewhere_fields states_list : list string).
Context (athletes elsewhere : list row) (keyed keyed_elsewhere : list (string * row)).
Context (Hkeyed :
  keyed ≡ₚ omap (season_entry S seen ∅ out_fields s lookup (Some born_state)) athletes).
Context (Hkeyed_elsewhere :
  keyed_elsewhere ≡ₚ omap (season_entry S seen ∅ out_fields s lookup None) elsewhere).
Context (Hgames : "Games" ∈ out_fields).
Context (c : cache).
Context (Hc : ∀ aid,
  cache_get c aid s
  = if decide (aid = "") then None
    else foldl merge_games None
           (tokens_of <$> filter (λ r, athlete_id r = aid)
              (all_states_rows states_list out_fields keyed
                 ++ elsewhere_rows elsewhere_fields keyed_elsewhere))).

(** Every row of the first run's matched tables is the output row of an
    input row the first run matched. *)
Lemma matched_row_origin w :
  w ∈ all_states_rows states_list out_fields keyed
        ++ elsewhere_rows elsewhere_fields keyed_elsewhere →
  ∃ r cell fields,
    games_cell S seen ∅ s lookup r = Some cell
    ∧ "Games" ∈ fields
    ∧ w = project fields (build_out_row r cell out_fields).
Proof using Hkeyed Hkeyed_elsewhere Hgames.
  assert (∀ key (l : list row) (e : string * row),
            e ∈ omap (season_entry S seen ∅ out_fields s lookup key) l →
            ∃ r cell, games_cell S seen ∅ s lookup r = Some cell
                      ∧ e.2 = build_out_row r cell out_fields) as Hentry.
  { intros key l e (r & _ & He)%list_elem_of_omap. unfold season_entry in He.
    destruct (games_cell S seen ∅ s lookup r) as [cell|] eqn:Hcell; [|done].
    simpl in He. injection He as <-. exists r, cell. split; [done|reflexivity]. }
  intros [Hw|Hw]%elem_of_app.
  - unfold all_states_rows in Hw.
    apply list_elem_of_fmap in Hw as (x & -> & Hx).
    apply list_elem_of_bind in Hx as (state & Hx & _).
    rewrite rows_of_group in Hx. apply list_elem_of_fmap in Hx as (e & -> & He).
    apply list_elem_of_filter in He as [_ He]. rewrite Hkeyed in He.
    apply Hentry in He as (r & cell & Hcell & ->).
    by exists r, cell, out_fields.
  - unfold elsewhere_rows in Hw.
    apply list_elem_of_fmap in Hw as (x & -> & Hx).
    apply list_elem_of_fmap in Hx as (e & -> & He). rewrite Hkeyed_elsewhere in He.
    apply Hentry in He as (r & cell & Hcell & ->).
    exists r, cell, (make_out_fields elsewhere_fields).
    split_and!; [done|apply games_in_out_fields|done].
Qed.

Lemma scraped_by_id r :
  athlete_id r ≠ "" → scraped S s r = (games_from_page S (athlete_id r) s start).1.
Proof. intros Hne. unfold scraped, scrape. by rewrite bool_decide_eq_false_2. Qed.

Lemma scraped_tidy r g games :
  athlete_id r ≠ "" → scraped S s r = Some (g :: games) →
  Forall tidy (g :: games) ∧ NoDup (g :: games).
Proof.
  intros Hne. rewrite scraped_by_id by done.
  destruct (games_from_page S (athlete_id r) s start) as [o w] eqn:Hpage.
  simpl. intros ->. by eapply games_from_page_tidy.
Qed.

Lemma rerun_cell r :
  games_cell S seen c s lookup r = games_cell S seen ∅ s lookup r.
Proof using Hkeyed Hkeyed_elsewhere Hgames Hc.
  unfold games_cell, first_pass. case_bool_decide as Hseen; [done|].
  unfold cache_get at 2. rewrite lookup_empty. cbn [mbind option_bind].
  rewrite Hc. case_decide as Hempty; [done|].
  remember (filter (λ r0, athlete_id r0 = athlete_id r) _) as mine eqn:Hmine.
  destruct (foldl merge_games None (tokens_of <$> mine)) as [l|] eqn:Hfold; [|done].
  destruct mine as [|w0 mine']; [done|].
  assert (∀ w, w ∈ w0 :: mine' →
            ∃ g games, scraped S s r = Some (g :: games)
                       ∧ tokens_of w = Py.sorted (g :: games)) as Hrows.
  { intros w Hw. rewrite Hmine in Hw. apply list_elem_of_filter in Hw as [Haid Hw].
    apply matched_row_origin in Hw as (r' & cell & fields & Hcell & Hfields & ->).
    destruct (written_athlete_id fields out_fields r' cell) as [Hid|Hid];
      [|congruence]. rewrite Hid in Haid.
    unfold games_cell, first_pass in Hcell. rewrite Haid in Hcell.
    rewrite bool_decide_eq_false_2 in Hcell by done.
    unfold cache_get in Hcell. rewrite lookup_empty in Hcell.
    cbn [mbind option_bind] in Hcell. unfold second_pass in Hcell.
    assert (scraped S s r' = scraped S s r) as Hsame.
    { rewrite !scraped_by_id by congruence. by rewrite Haid. }
    rewrite Hsame in Hcell.
    destruct (scraped S s r) as [[|g games]|] eqn:Hscr; try done.
    injection Hcell as <-. exists g, games. split; [done|].
    rewrite written_tokens by done. apply games_of_join.
    destruct (scraped_tidy r g games Hempty Hscr) as [Htidy _].
    by rewrite sorted_perm. }
  destruct (Hrows w0) as (g & games & Hscr & _); [by left|].
  destruct (scraped_tidy r g games Hempty Hscr) as [_ Hnd].
  assert (l = Py.sorted (g :: games)) as ->.
  { rewrite (fmap_replicate_const _ _ (Py.sorted (g :: games))) in Hfold.
    - cbn [length] in Hfold.
      rewrite merge_same in Hfold; [by injection Hfold|apply sorted_Sorted|].
      by rewrite sorted_perm.
    - intros w Hw. destruct (Hrows w Hw) as (g' & games' & Hscr' & ->).
      rewrite Hscr in Hscr'. by injection Hscr' as <- <-. }
  unfold second_pass. rewrite Hscr, sorted_idemp.
  destruct (Py.sorted (g :: games)) as [|g' games'] eqn:Hsorted; [|done].
  assert (g :: games ≡ₚ []) as Hnil by by rewrite <- Hsorted, sorted_perm.
  by apply Permutation_nil_r in Hnil.
Qed.

Lemma rerun_rows key l w w' :
  (classify_athletes S seen c out_fields s lookup key l w).1.1
  ≡ₚ (classify_athletes S seen ∅ out_fields s lookup key l w').1.1.
Proof using Hs Hkeyed Hkeyed_elsewhere Hgames Hc.
  rewrite !classify_rows by done. apply eq_perm.
  induction l as [|r l IH]; [done|]. cbn [omap list_omap].
  assert (season_entry S seen c out_fields s lookup key r
          = season_entry S seen ∅ out_fields s lookup key r) as ->.
  { unfold season_entry. by rewrite rerun_cell. }
  by rewrite IH.
Qed.
End rerun.

(** ** The files of a run *)

Ltac path_neq :=
  let H := fresh in
  intros H;
  cbv [FilterByOlympics.by_state_path path_join String.append
       FilterByOlympics.season_dir FilterByOlympics.WINTER_DIR
       FilterByOlympics.SUMMER_DIR FilterByOlympics.INPUT_DIR
       FilterByOlympics.OUTPUT_DIR] in H;
  discriminate H.

Section files.
Import FilterByOlympics Spec.

Lemma write_states_other out_dir out_fields m fs states p :
  (∀ state, p ≠ by_state_path out_dir state) →
  foldl (write_state out_dir out_fields m) fs states !! p = fs !! p.
Proof.
  intros Hp. revert fs. induction states as [|state states IH]; intros fs; [done|].
  cbn [foldl]. rewrite IH. unfold write_state.
  destruct (rows_of m state); [done|]. unfold write_csv.
  rewrite lookup_insert_ne; [done|]. intros Heq. by apply (Hp state).
Qed.

Lemma write_other states_list s states_rows elsewhere_rows no_match out_fields
    elsewhere_fields fs p :
  ¬ written s p →
  (write_season_output states_list (season_dir s) states_rows elsewhere_rows
     no_match out_fields elsewhere_fields fs).1 !! p = fs !! p.
Proof.
  intros Hp. unfold write_season_output, write_csv. cbn [fst].
  assert (∀ q, written s q → q ≠ p) as Hq by (by intros q Hq ->).
  rewrite !lookup_insert_ne, write_states_other, lookup_insert_ne; try done.
  - apply Hq. unfold written. auto.
  - intros state Heq. apply (Hq p); [|done]. unfold written. eauto.
  - apply Hq. unfold written. auto.
  - apply Hq. unfold written. auto 10.
  - apply Hq. unfold written. auto 10.
Qed.

Lemma write_all_states states_list s states_rows elsewhere_rows no_match out_fields
    elsewhere_fields fs :
  (write_season_output states_list (season_dir s) states_rows elsewhere_rows
     no_match out_fields elsewhere_fields fs).1
    !! path_join (season_dir s) "all-states.csv"
  = Some {| fieldnames := out_fields;
            rows := all_states_rows states_list out_fields states_rows |}.
Proof.
  unfold write_season_output, write_csv. cbn [fst].
  rewrite !lookup_insert_ne by (destruct s; path_neq).
  by rewrite lookup_insert_eq.
Qed.

Lemma write_elsewhere states_list s states_rows elsewhere_rows no_match out_fields
    elsewhere_fields fs :
  (write_season_output states_list (season_dir s) states_rows elsewhere_rows
     no_match out_fields elsewhere_fields fs).1
    !! path_join (season_dir s) "us-born-elsewhere.csv"
  = Some {| fieldnames := make_out_fields elsewhere_fields;
            rows := Spec.elsewhere_rows elsewhere_fields elsewhere_rows |}.
Proof.
  unfold write_season_output, write_csv. cbn [fst].
  rewrite !lookup_insert_ne by (destruct s; path_neq).
  by rewrite lookup_insert_eq.
Qed.

Lemma not_written_matched s s' fname :
  s ≠ s' → fname ∈ MATCHED → ¬ written s (path_join (season_dir s') fname).
Proof.
  intros Hs Hf. unfold MATCHED in Hf.
  assert (fname = "all-states.csv" ∨ fname = "us-born-elsewhere.csv") as [-> | ->].
  { repeat (apply elem_of_cons in Hf as [Hf|Hf]); auto. by apply elem_of_nil in Hf. }
  all: intros [H|[[state H]|[H|[H|H]]]]; revert H; destruct s, s'; try done; path_neq.
Qed.

Lemma not_written_input s dir fname :
  dir = INPUT_DIR ∨ dir = OUTPUT_DIR → ¬ written s (path_join dir fname).
Proof.
  intros Hdir [H|[[state H]|[H|[H|H]]]]; revert H;
    destruct Hdir as [-> | ->]; destruct s; path_neq.
Qed.
End files.

Section run.
Import FilterByOlympics Spec.
Context (S : site) (states_list : list string) (idx : index) (c : cache)
  (out_fields elsewhere_fields : list string) (athletes elsewhere : list row).

Abbreviation classify_states s :=
  (classify_athletes S (seen_ids idx) c out_fields s (lookup_of s idx) (Some born_state)
     athletes).
Abbreviation classify_elsewhere s :=
  (classify_athletes S (seen_ids idx) c out_fields s (lookup_of s idx) None elsewhere).
Abbreviation run s :=
  (run_season S states_list idx c out_fields elsewhere_fields athletes elsewhere s).

Lemma run_season_unfold s fs w :
  run s fs w
  = ((write_season_output states_list (season_dir s) (classify_states s w).1.1
        (classify_elsewhere s (classify_states s w).2).1.1
        ((classify_states s w).1.2 ++ (classify_elsewhere s (classify_states s w).2).1.2)
        out_fields elsewhere_fields fs).1,
     (classify_elsewhere s (classify_states s w).2).2).
Proof.
  unfold run_season. destruct (classify_states s w) as [[K nm] w1]. cbn [fst snd].
  by destruct (classify_elsewhere s w1) as [[KE nmE] w2].
Qed.

Lemma run_season_all_states s fs w :
  (run s fs w).1 !! path_join (season_dir s) "all-states.csv"
  = Some {| fieldnames := out_fields;
            rows := all_states_rows states_list out_fields (classify_states s w).1.1 |}.
Proof. rewrite run_season_unfold. cbn [fst]. apply write_all_states. Qed.

Lemma run_season_elsewhere s fs w :
  (run s fs w).1 !! path_join (season_dir s) "us-born-elsewhere.csv"
  = Some {| fieldnames := make_out_fields elsewhere_fields;
            rows := elsewhere_rows elsewhere_fields
                      (classify_elsewhere s (classify_states s w).2).1.1 |}.
Proof. rewrite run_season_unfold. cbn [fst]. apply write_elsewhere. Qed.

Lemma run_season_other s fs w p :
  ¬ written s p → (run s fs w).1 !! p = fs !! p.
Proof. intros Hp. rewrite run_season_unfold. cbn [fst]. by apply write_other. Qed.

Lemma run_season_matched s fs w :
  matched_rows (run s fs w).1 s
  = all_states_rows states_list out_fields (classify_states s w).1.1
    ++ elsewhere_rows elsewhere_fields
         (classify_elsewhere s (classify_states s w).2).1.1.
Proof.
  unfold matched_rows, MATCHED. cbn [mbind list_bind].
  rewrite run_season_all_states, run_season_elsewhere. cbn. by rewrite app_nil_r.
Qed.

Lemma run_season_matched_other s s' fs w :
  s ≠ s' → matched_rows (run s fs w).1 s' = matched_rows fs s'.
Proof.
  intros Hs. unfold matched_rows, MATCHED. cbn [mbind list_bind].
  rewrite !run_season_other; [done| |];
    apply not_written_matched; try done; unfold MATCHED; set_solver.
Qed.
End run.

Section idempotence.
Import FilterByOlympics Spec.
Context (S : site) (Hs : stateless S).

Lemma rerun_season states_list idx out_fields elsewhere_fields athletes elsewhere
    s fs1 wa wb key l w w' :
  "Games" ∈ out_fields →
  matched_rows fs1 s
  = all_states_rows states_list out_fields
      (classify_athletes S (seen_ids idx) ∅ out_fields s (lookup_of s idx)
         (Some born_state) athletes wa).1.1
    ++ elsewhere_rows elsewhere_fields
         (classify_athletes S (seen_ids idx) ∅ out_fields s (lookup_of s idx)
            None elsewhere wb).1.1 →
  (classify_athletes S (seen_ids idx) (build_output_cache fs1) out_fields s
     (lookup_of s idx) key l w).1.1
  ≡ₚ (classify_athletes S (seen_ids idx) ∅ out_fields s (lookup_of s idx) key l w').1.1.
Proof using Hs.
  intros Hgames Hmatched.
  eapply (rerun_rows S Hs (seen_ids idx) (lookup_of s idx) s out_fields
            elsewhere_fields states_list athletes elsewhere);
    [by apply classify_rows|by apply classify_rows|done|].
  intros aid. by rewrite cache_get_build, Hmatched.
Qed.

Lemma cached_not_scraped seen c out_fields s lookup key pre r post w :
  (athlete_id r ∈ seen ∨ cache_get c (athlete_id r) s ≠ None) →
  (classify_athletes S seen c out_fields s lookup key (pre ++ r :: post) w).2
  = (classify_athletes S seen c out_fields s lookup key (pre ++ post) w).2.
Proof.
  intros Hr. rewrite !ByOlympics.classify_unfold. cbn [snd].
  rewrite (ByOlympics.triage_app _ _ _ _ _ _ pre (r :: post)),
    (ByOlympics.triage_app _ _ _ _ _ _ pre post).
  change (r :: post) with ([r] ++ post).
  rewrite (ByOlympics.triage_app _ _ _ _ _ _ [r] post). cbn [snd].
  assert ((foldl (triage seen c out_fields s lookup key) ([], []) [r]).2 = []) as ->; [|done].
  cbn [foldl]. rewrite triage_one. unfold first_pass. case_bool_decide as Hseen.
  - by destruct (default [] (lookup !! athlete_id r)).
  - destruct Hr as [?|Hr]; [done|].
    by destruct (cache_get c (athlete_id r) s) as [[|g gs]|].
Qed.
End idempotence.


(** ** Repetition in the matcher *)

Section rep.
Context (p : ascii → bool).

(** What a successful repetition consumed. *)
Lemma rep_sound greedy min pre l k res :
  Py.rep p greedy min pre l k = Some res →
  ∃ x l', l = x ++ l' ∧ Forall (λ c, p c = true) x ∧ (min ≤ length x)%nat
          ∧ k (rev x ++ pre) l' = Some res.
Proof.
  revert min pre. induction l as [|c l IH]; intros min pre H.
  - destruct min as [|min]; [|done]. exists [], []. split_and!; [done|constructor|done|].
    simpl in *. destruct greedy; [done|]. by destruct (k pre []).
  - destruct min as [|min]; simpl in H.
    + assert (k pre (c :: l) = Some res
              ∨ (p c = true ∧ Py.rep p greedy 0 (c :: pre) l k = Some res)) as [Hk|[Hc Hrec]].
      { destruct greedy.
        - destruct (p c); [|by left].
          destruct (Py.rep p true 0 (c :: pre) l k); [right; by simplify_eq|by left].
        - destruct (k pre (c :: l)); [left; by simplify_eq|].
          destruct (p c); [by right|done]. }
      * exists [], (c :: l). split_and!; [done|constructor|done|done].
      * apply IH in Hrec as (x & l' & -> & Hx & _ & Hk).
        exists (c :: x), l'. split_and!; [done|by constructor|simpl; lia|].
        simpl. by rewrite <- app_assoc.
    + destruct (p c) eqn:Hc; [|done].
      apply IH in H as (x & l' & -> & Hx & Hmin & Hk).
      exists (c :: x), l'. split_and!; [done|by constructor|simpl; lia|].
      simpl. by rewrite <- app_assoc.
Qed.

(** A greedy repetition that can take all of [x] and no more tries the
    continuation there first. *)
Lemma rep_greedy x pre l k res :
  Forall (λ c, p c = true) x →
  match l with [] => True | c :: _ => p c = false end →
  k (rev x ++ pre) l = Some res →
  Py.rep p true 0 pre (x ++ l) k = Some res.
Proof.
  revert pre. induction x as [|c x IH]; intros pre Hx Hl Hk.
  - simpl in *. destruct l as [|c l]; simpl; [done|]. by rewrite Hl.
  - apply Forall_cons in Hx as [Hc Hx]. simpl. rewrite Hc.
    rewrite (IH (c :: pre)); [done|done|done|]. simpl in Hk. by rewrite <- app_assoc in Hk.
Qed.

(** A lazy repetition stops at the first length the continuation takes. *)
Lemma rep_lazy x pre l k res :
  Forall (λ c, p c = true) x →
  (∀ x1 x2, x = x1 ++ x2 → x2 ≠ [] → k (rev x1 ++ pre) (x2 ++ l) = None) →
  k (rev x ++ pre) l = Some res →
  Py.rep p false 0 pre (x ++ l) k = Some res.
Proof.
  revert pre. induction x as [|c x IH]; intros pre Hx Hshort Hk.
  - simpl in *. destruct l; simpl; by rewrite Hk.
  - apply Forall_cons in Hx as [Hc Hx]. simpl.
    pose proof (Hshort [] (c :: x) eq_refl ltac:(done)) as H0. simpl in H0.
    rewrite H0, Hc.
    apply IH; [done| |by simpl in Hk; rewrite <- app_assoc in Hk].
    intros x1 x2 -> Hx2. specialize (Hshort (c :: x1) x2). simpl in Hshort.
    rewrite <- app_assoc in Hshort. by apply Hshort.
Qed.
End rep.

(** ** The birth-place pattern *)

Lemma lit1_spec a pre l pre' l' :
  Py.lit_chars [a] pre l = Some (pre', l') → l = a :: l' ∧ pre' = a :: pre.
Proof. intros [-> ->]%lit_chars_spec. done. Qed.

Lemma at_eol_spec l : Py.at_eol l = true → l = [] ∨ l = ["010"%char].
Proof.
  destruct l as [|c [|c' l]]; simpl; [by left| |done].
  case_bool_decide; [|done]. subst. by right.
Qed.

Lemma born_re_sound pre l m :
  Py.run _BORN_RE pre l ∅ Py.accept = Some m →
  ∃ ws1 g ws2 code ws3 tail,
    l = ","%char :: ws1 ++ g ++ ws2 ++ "("%char :: code ++ ")"%char :: ws3 ++ tail
    ∧ Forall (λ c, Py.isspace c = true) ws1
    ∧ Forall (λ c, Py.not_char "," c = true) g ∧ g ≠ []
    ∧ Forall (λ c, Py.isspace c = true) ws2
    ∧ Forall (λ c, Py.isupper c = true) code ∧ code ≠ []
    ∧ Forall (λ c, Py.isspace c = true) ws3
    ∧ Py.at_eol tail = true
    ∧ Py.group 1 m = Py.str g
    ∧ Py.group 2 m = Py.str code.
Proof.
  unfold _BORN_RE. cbn [Py.cats Py.run].
  change (Py.chars ",") with [","%char]. change (Py.chars "(") with ["("%char].
  change (Py.chars ")") with [")"%char].
  destruct (Py.lit_chars [","%char] pre l) as [[pre1 l1]|] eqn:H1; [|done].
  apply lit1_spec in H1 as [-> ->].
  intros (ws1 & l2 & -> & Hws1 & _ & H)%rep_sound.
  apply rep_sound in H as (g & l3 & -> & Hg & Hglen & H).
  apply rep_sound in H as (ws2 & l4 & -> & Hws2 & _ & H).
  destruct (Py.lit_chars ["("%char] _ l4) as [[pre5 l5]|] eqn:H5; [|done].
  apply lit1_spec in H5 as [-> ->].
  apply rep_sound in H as (code & l6 & -> & Hcode & Hclen & H).
  destruct (Py.lit_chars [")"%char] _ l6) as [[pre7 l7]|] eqn:H7; [|done].
  apply lit1_spec in H7 as [-> ->].
  apply rep_sound in H as (ws3 & tail & -> & Hws3 & _ & H).
  destruct (Py.at_eol tail) eqn:Heol; [|done]. unfold Py.accept in H. injection H as <-.
  exists ws1, g, ws2, code, ws3, tail. split_and!; try done.
  - intros ->. simpl in Hglen. lia.
  - intros ->. simpl in Hclen. lia.
  - unfold Py.group. rewrite lookup_insert_ne by done. rewrite lookup_insert_eq.
    cbn [default from_option id]. f_equal.
    rewrite length_app, length_rev, Nat.add_sub, <- (length_rev g).
    by rewrite take_app_length, rev_involutive.
  - unfold Py.group. rewrite lookup_insert_eq. cbn [default from_option id]. f_equal.
    rewrite length_app, length_rev, Nat.add_sub, <- (length_rev code).
    by rewrite take_app_length, rev_involutive.
Qed.

Lemma space_not_comma c : Py.isspace c = true → Py.not_char "," c = true.
Proof. by destruct c as [[] [] [] [] [] [] [] []]. Qed.

Lemma upper_not_comma c : Py.isupper c = true → Py.not_char "," c = true.
Proof. by destruct c as [[] [] [] [] [] [] [] []]. Qed.

Lemma last_not_space l xl :
  Py.lstrip_chars (rev (l ++ [xl])) = rev (l ++ [xl]) → Py.isspace xl = false.
Proof.
  rewrite rev_app_distr. simpl. destruct (Py.isspace xl); [|done]. intros H.
  pose proof (lstrip_length (rev l)) as Hlen. rewrite H in Hlen. simpl in Hlen. lia.
Qed.

Lemma born_re_complete pre ws1 c0 rest0 ws2 u0 code ws3 :
  Forall (λ c, Py.isspace c = true) ws1 →
  Py.isspace c0 = false →
  Py.lstrip_chars (rev (c0 :: rest0)) = rev (c0 :: rest0) →
  Forall (λ c, c ≠ ","%char ∧ c ≠ "("%char) (c0 :: rest0) →
  Forall (λ c, Py.isspace c = true) ws2 →
  Forall (λ c, Py.isupper c = true) (u0 :: code) →
  Forall (λ c, Py.isspace c = true) ws3 →
  ∃ m,
    Py.run _BORN_RE pre
      (","%char :: ws1 ++ (c0 :: rest0) ++ ws2 ++ "("%char :: (u0 :: code) ++ ")"%char :: ws3)
      ∅ Py.accept = Some m
    ∧ Py.group 1 m = Py.str (c0 :: rest0).
Proof.
  intros Hws1 Hc0 Hlast Hplace Hws2 Hcode Hws3.
  apply Forall_cons in Hplace as [[Hc0comma Hc0paren] Hrest].
  apply Forall_cons in Hcode as [Hu0 Hcode].
  eexists. split.
  - unfold _BORN_RE. cbn [Py.cats Py.run].
    change (Py.chars ",") with [","%char]. change (Py.chars "(") with ["("%char].
    change (Py.chars ")") with [")"%char].
    cbn [Py.lit_chars]. rewrite bool_decide_eq_true_2 by done.
    apply rep_greedy; [done|done|].
    cbn [app Py.rep]. unfold Py.not_char at 1, Py.is_char at 1.
    rewrite bool_decide_eq_false_2 by done. cbn [negb].
    apply rep_lazy.
    + eapply Forall_impl; [exact Hrest|]. intros c [Hc _]. unfold Py.not_char, Py.is_char.
      by rewrite bool_decide_eq_false_2.
    + intros x1 x2 -> Hx2.
      match goal with |- ?lhs = None => destruct lhs as [res|] eqn:Hres; [|done] end.
      exfalso. apply rep_sound in Hres as (x & l' & Hsplit & Hx & _ & Hk).
      destruct l' as [|cp l5]; [done|]. case_bool_decide as Hcp; [|done].
      subst cp. clear Hk.
      apply app_eq_app in Hsplit as [d [[Hx2eq Heq]|[Hxeq Heq]]].
      * (* the blanks end inside the place: its next character would be "(" *)
        destruct d as [|d0 d].
        -- rewrite app_nil_r in Hx2eq. subst x2.
           (* the whole rest of the place is blank, yet its last character is not *)
           destruct x as [|xl x _] using rev_ind; [done|].
           apply Forall_app in Hx as [_ [Hxl _]%Forall_cons].
           rewrite app_comm_cons, (app_assoc _ x [xl]) in Hlast.
           apply last_not_space in Hlast. congruence.
        -- simpl in Heq. injection Heq as <- _.
           assert ("("%char ∈ x1 ++ x2) as Hin.
           { rewrite Hx2eq. rewrite !elem_of_app. right. right. by left. }
           eapply Forall_forall in Hrest as [_ Hparen]; [|exact Hin]. done.
      * (* the blanks run past the place: its last character would be blank *)
        destruct x2 as [|xl x2 _] using rev_ind; [done|].
        assert (Py.isspace xl = true) as Hxl.
        { eapply Forall_forall in Hx; [exact Hx|]. rewrite Hxeq, !elem_of_app.
          left. right. by left. }
        rewrite app_comm_cons, (app_assoc _ x2 [xl]) in Hlast.
        apply last_not_space in Hlast. congruence.
    + apply rep_greedy; [done|done|].
      cbn [Py.lit_chars]. rewrite bool_decide_eq_true_2 by done.
      cbn [app Py.rep]. rewrite Hu0.
      apply rep_greedy; [done|done|].
      cbn [Py.lit_chars]. rewrite bool_decide_eq_true_2 by done.
      rewrite <- (app_nil_r ws3). apply rep_greedy; [done|done|].
      cbn [Py.at_eol]. unfold Py.accept. reflexivity.
  - unfold Py.group. rewrite lookup_insert_ne by done. rewrite lookup_insert_eq.
    cbn [default from_option id]. f_equal.
    assert (rev rest0 ++ c0 :: rev ws1 ++ ","%char :: pre
            = rev (c0 :: rest0) ++ (rev ws1 ++ ","%char :: pre)) as ->
      by (simpl; by rewrite <- app_assoc).
    by rewrite length_app, Nat.add_sub, take_app_length, rev_involutive.
Qed.

Lemma born_re_comma_free pre l m :
  Py.run _BORN_RE pre l ∅ Py.accept = Some m →
  ∃ rest, l = ","%char :: rest ∧ ","%char ∉ rest.
Proof.
  intros (ws1 & g & ws2 & code & ws3 & tail & -> & Hws1 & Hg & _ & Hws2 & Hcode & _
          & Hws3 & Htail & _)%born_re_sound.
  eexists. split; [done|].
  assert (∀ x, Forall (λ c, Py.not_char "," c = true) x → ","%char ∉ x) as Hfree.
  { intros x Hx Hin. eapply Forall_forall in Hx; [|exact Hin]. done. }
  assert (","%char ∉ ws1) as F1.
  { apply Hfree. eapply Forall_impl; [exact Hws1|]. apply space_not_comma. }
  assert (","%char ∉ g) as F2 by by apply Hfree.
  assert (","%char ∉ ws2) as F3.
  { apply Hfree. eapply Forall_impl; [exact Hws2|]. apply space_not_comma. }
  assert (","%char ∉ code) as F4.
  { apply Hfree. eapply Forall_impl; [exact Hcode|]. apply upper_not_comma. }
  assert (","%char ∉ ws3) as F5.
  { apply Hfree. eapply Forall_impl; [exact Hws3|]. apply space_not_comma. }
  assert (","%char ∉ tail) as F6.
  { apply at_eol_spec in Htail as [-> | ->]; [apply not_elem_of_nil|].
    by intros [?|?%elem_of_nil]%elem_of_cons. }
  intros Hin. repeat (rewrite elem_of_app in Hin || rewrite elem_of_cons in Hin).
  repeat match goal with H : _ ∨ _ |- _ => destruct H end; done.
Qed.

Lemma search_no_comma pre l :
  ","%char ∉ l → Py.search_from _BORN_RE pre l = None.
Proof.
  revert pre. induction l as [|c l IH]; intros pre Hl; cbn [Py.search_from].
  - destruct (Py.run _BORN_RE pre [] ∅ Py.accept) as [m|] eqn:Hrun; [|done].
    by apply born_re_comma_free in Hrun as (rest & ? & _).
  - destruct (Py.run _BORN_RE pre (c :: l) ∅ Py.accept) as [m|] eqn:Hrun.
    + apply born_re_comma_free in Hrun as (rest & [= -> ->] & _).
      exfalso. apply Hl. by left.
    + apply IH. intros ?. apply Hl. by right.
Qed.

Lemma search_last_comma pre before rest :
  Py.search_from _BORN_RE pre (before ++ ","%char :: rest)
  = Py.search_from _BORN_RE (rev before ++ pre) (","%char :: rest).
Proof.
  revert pre. induction before as [|b before IH]; intros pre; [done|].
  cbn [app Py.search_from].
  destruct (Py.run _BORN_RE pre (b :: before ++ ","%char :: rest) ∅ Py.accept)
    as [m|] eqn:Hrun.
  - apply born_re_comma_free in Hrun as (rest' & [= -> <-] & Hfree).
    exfalso. apply Hfree. rewrite elem_of_app. right. by left.
  - rewrite IH. simpl. by rewrite <- app_assoc.
Qed.


(** ** Counterexamples and instances *)





(** C6, an instance. *)
Lemma cache_reports_unseen_or_union_witness :
  FilterByOlympics.cache_get
    (FilterByOlympics.build_output_cache Sample.blank_games_prior) "7" Winter = Some []
  ∧ ∀ r, r ∈ filter (λ r, athlete_id r = "7")
               (Spec.matched_rows Sample.blank_games_prior Winter) →
         Spec.tokens_of r = [].
Proof.
  assert (FilterByOlympics.cache_get
            (FilterByOlympics.build_output_cache Sample.blank_games_prior) "7" Winter
          = Some []) as Hst by by vm_compute.
  split; [exact Hst|].
  destruct (cache_reports_unseen_or_union Sample.blank_games_prior "7" Winter)
    as (_ & H & _).
  destruct (H [] Hst) as [_ [Hempty _]]. exact (Hempty eq_refl).
Defined.




(** C10, an instance. *)
Lemma unrecognised_state_is_written_nowhere_witness :
  ("Unknown" ∉ ["Montana"])
  ∧ FilterByOlympics.write_season_output ["Montana"] "winter-output-data"
      ([] ++ ("Unknown", Sample.athlete) :: []) [] [] ["athlete_id"; "Games"]
      ["athlete_id"; "Games"] ∅
    = FilterByOlympics.write_season_output ["Montana"] "winter-output-data"
        ([] ++ []) [] [] ["athlete_id"; "Games"] ["athlete_id"; "Games"] ∅.
Proof.
  assert ("Unknown" ∉ ["Montana"]) as H by (by apply (bool_decide_unpack _); vm_compute).
  split; [exact H|].
  exact (proj1 (unrecognised_state_is_written_nowhere ["Montana"] "winter-output-data"
                  [] [] [] "Unknown" Sample.athlete [] ["athlete_id"; "Games"]
                  ["athlete_id"; "Games"] ∅ H)).
Defined.
